(** * The message-sharing server: reflection registration, submission, identity

    A shallow embedding of [server.js]: the request handlers (POST /share,
    POST /reflect/:messageId), [getClientIp], [initializeDatabase] and
    [seedInitialData], run against a model of the two tables that
    [initializeDatabase] declares (with their keys and column types), and
    the properties of the reflection registration protocol.

    A handler is a program that awaits statements; the statements of one
    request go to one connection of the pool, one request at a time.  What
    the engine does with two transaction blocks open at once (locks,
    isolation) is not modelled. *)

From Stdlib Require Import List ZArith NArith Bool String Ascii Lia.
Import ListNotations.
Open Scope Z_scope.

(* ================================================================= *)
(** ** JavaScript strings *)

(** A string is the list of its Unicode code points. *)
Definition jsstring := list N.

(** A string literal of the source. *)
Definition js (s : string) : jsstring :=
  map N_of_ascii (list_ascii_of_string s).

Fixpoint str_eqb (a b : jsstring) : bool :=
  match a, b with
  | [], [] => true
  | x :: a', y :: b' => N.eqb x y && str_eqb a' b'
  | _, _ => false
  end.

(** [String.prototype.trim] strips WhiteSpace and LineTerminator code points
    (ECMAScript: TAB, VT, FF, SP, NBSP, ZWNBSP, the Zs category, LF, CR, LS,
    PS) from both ends. *)
Definition is_white_space (c : N) : bool :=
  (  N.eqb c 9 || N.eqb c 10 || N.eqb c 11 || N.eqb c 12 || N.eqb c 13
  || N.eqb c 32 || N.eqb c 160 || N.eqb c 5760
  || (N.leb 8192 c && N.leb c 8202)
  || N.eqb c 8232 || N.eqb c 8233 || N.eqb c 8239 || N.eqb c 8287
  || N.eqb c 12288 || N.eqb c 65279)%bool.

Fixpoint trimStart (s : jsstring) : jsstring :=
  match s with
  | [] => []
  | c :: s' => if is_white_space c then trimStart s' else s
  end.

Definition trimEnd (s : jsstring) : jsstring := rev (trimStart (rev s)).

Definition trim (s : jsstring) : jsstring := trimEnd (trimStart s).

(** [s.split(sep)] for a one-character separator: never the empty array. *)
Fixpoint split (sep : N) (s : jsstring) : list jsstring :=
  match s with
  | [] => [[]]
  | c :: s' =>
      if N.eqb c sep then [] :: split sep s'
      else match split sep s' with
           | [] => [[c]]
           | w :: ws => (c :: w) :: ws
           end
  end.

Definition comma : N := 44.

(* ================================================================= *)
(** ** Requests *)

(** A field of [req.body].  The body parsers ([express.urlencoded],
    [express.json]) produce strings, [null], or other values (numbers,
    booleans, arrays, objects); an absent field reads as [undefined].  A
    value that is none of the first three is given by the two things the
    handlers observe of it: its truthiness and the text the database driver
    sends for it.  None of them has a [trim] method. *)
Inductive jsvalue :=
| JUndefined
| JNull
| JString (s : jsstring)
| JOther (truthy : bool) (text : jsstring).

Definition truthy (v : jsvalue) : bool :=
  match v with
  | JUndefined | JNull => false
  | JString s => match s with [] => false | _ :: _ => true end
  | JOther t _ => t
  end.

(** A destructuring default, [{ x = d }]: it applies to [undefined] only. *)
Definition default (v : jsvalue) (d : jsstring) : jsvalue :=
  match v with
  | JUndefined => JString d
  | _ => v
  end.

Record body := {
  body_message : jsvalue;
  body_category : jsvalue;
  body_author : jsvalue
}.

(** What [getClientIp] reads of a request: the [x-forwarded-for] header and
    [req.ip], each a string or [undefined]. *)
Record request := {
  x_forwarded_for : option jsstring;
  ip : option jsstring
}.

(** [a || b] on values that are strings or [undefined]. *)
Definition or_else (a b : option jsstring) : option jsstring :=
  match a with
  | Some (_ :: _) => a
  | _ => b
  end.

(** [req.headers['x-forwarded-for']?.split(',')[0]] *)
Definition forwarded_first (req : request) : option jsstring :=
  match x_forwarded_for req with
  | Some h => nth_error (split comma h) 0
  | None => None
  end.

(** [function getClientIp(req)] *)
Definition getClientIp (req : request) : jsstring :=
  match or_else (or_else (forwarded_first req) (ip req))
                (Some (js "unknown")) with
  | Some s => s
  | None => []
  end.

(* ================================================================= *)
(** ** The two tables *)

(** A row of [messages].  [category] is nullable and an explicit [null]
    parameter is stored as NULL; [created_at] is written by the engine
    alone and read by no statement modelled here. *)
Record message_row := {
  id : Z;
  text : jsstring;
  category : option jsstring;
  author : jsstring;
  reflection_count : Z
}.

(** A row of [reflections], the ledger. *)
Record reflection_row := {
  r_id : Z;
  message_id : Z;
  user_ip : jsstring
}.

Record tables := {
  messages : list message_row;
  reflections : list reflection_row
}.

(** What [pool.query] talks to.  [store] is what the connection sees;
    [snapshot] is the content at BEGIN while a transaction block is open.
    The two SERIAL sequences are not transactional.  [failures] is the
    schedule of engine failures that the tables do not determine (lost
    connection, a path segment that is no integer, integer overflow, an
    invalid byte sequence): the n-th statement fails when its n-th entry is
    [true]; past the end no statement fails. *)
Record pool := {
  store : tables;
  snapshot : option tables;
  messages_id_seq : Z;
  reflections_id_seq : Z;
  failures : list bool
}.

Inductive sqlstate :=
| unique_violation               (* 23505 *)
| foreign_key_violation          (* 23503 *)
| string_data_right_truncation   (* 22001 *)
| engine_failure.                (* anything else *)

(** The statements the server sends, with their parameters. *)
Inductive query :=
| CreateMessages                 (* CREATE TABLE IF NOT EXISTS messages *)
| CreateReflections              (* CREATE TABLE IF NOT EXISTS reflections *)
| CountMessages                  (* SELECT COUNT( * ) FROM messages *)
| InsertMessage (t : jsstring) (c : option jsstring) (a : jsstring)
                (n : option Z)   (* INSERT INTO messages; [n] absent: DEFAULT 0 *)
| SelectReflection (m : Z) (u : jsstring)
| Begin
| InsertReflection (m : Z) (u : jsstring)
| UpdateCount (m : Z)            (* reflection_count = reflection_count + 1 *)
| Commit
| SelectCount (m : Z)
| Rollback.

(** Result rows, each reduced to the one integer column the server reads. *)
Definition rows := list Z.

(** Assignment to a VARCHAR(n) column: a longer value is an error unless
    the excess is all spaces, which are then cut off. *)
Definition varchar (n : nat) (s : jsstring) : option jsstring :=
  if Nat.leb (List.length s) n then Some s
  else if forallb (N.eqb 32) (skipn n s) then Some (firstn n s)
  else None.

Definition set_store (p : pool) (t : tables) : pool :=
  {| store := t; snapshot := snapshot p;
     messages_id_seq := messages_id_seq p;
     reflections_id_seq := reflections_id_seq p;
     failures := failures p |}.

Definition set_snapshot (p : pool) (s : option tables) : pool :=
  {| store := store p; snapshot := s;
     messages_id_seq := messages_id_seq p;
     reflections_id_seq := reflections_id_seq p;
     failures := failures p |}.

Definition next_message_id (p : pool) : pool :=
  {| store := store p; snapshot := snapshot p;
     messages_id_seq := messages_id_seq p + 1;
     reflections_id_seq := reflections_id_seq p;
     failures := failures p |}.

Definition next_reflection_id (p : pool) : pool :=
  {| store := store p; snapshot := snapshot p;
     messages_id_seq := messages_id_seq p;
     reflections_id_seq := reflections_id_seq p + 1;
     failures := failures p |}.

Definition set_failures (p : pool) (f : list bool) : pool :=
  {| store := store p; snapshot := snapshot p;
     messages_id_seq := messages_id_seq p;
     reflections_id_seq := reflections_id_seq p;
     failures := f |}.

(** The end of a transaction block that does not commit: the content at
    BEGIN is back.  Outside a block nothing happens. *)
Definition abort (p : pool) : pool :=
  match snapshot p with
  | Some t => set_snapshot (set_store p t) None
  | None => p
  end.

(** A failed statement changes no row, and inside a transaction block it
    ends the block without committing. *)
Definition raise (e : sqlstate) (p : pool) : (sqlstate + rows) * pool :=
  (inl e, abort p).

Definition matches (m : Z) (u : jsstring) (r : reflection_row) : bool :=
  Z.eqb (message_id r) m && str_eqb (user_ip r) u.

Definition has_id (m : Z) (r : message_row) : bool := Z.eqb (id r) m.

Definition increment (m : Z) (r : message_row) : message_row :=
  if has_id m r
  then {| id := id r; text := text r; category := category r;
          author := author r; reflection_count := reflection_count r + 1 |}
  else r.

Definition perform (q : query) (p : pool) : (sqlstate + rows) * pool :=
  match q with
  | CreateMessages | CreateReflections => (inr [], p)
  | CountMessages => (inr [Z.of_nat (List.length (messages (store p)))], p)
  | InsertMessage t c a n =>
      let i := messages_id_seq p in
      let p := next_message_id p in
      let c' := match c with
                | Some s => option_map Some (varchar 50 s)
                | None => Some None
                end in
      match c', varchar 100 a with
      | Some c', Some a' =>
          let row := {| id := i; text := t; category := c'; author := a';
                        reflection_count := match n with
                                            | Some n => n
                                            | None => 0
                                            end |} in
          (inr [], set_store p {| messages := messages (store p) ++ [row];
                                  reflections := reflections (store p) |})
      | _, _ => raise string_data_right_truncation p
      end
  | SelectReflection m u =>
      (inr (map r_id (filter (matches m u) (reflections (store p)))), p)
  | Begin =>
      (inr [], match snapshot p with
               | None => set_snapshot p (Some (store p))
               | Some _ => p
               end)
  | InsertReflection m u =>
      let i := reflections_id_seq p in
      let p := next_reflection_id p in
      match varchar 45 u with
      | None => raise string_data_right_truncation p
      | Some u' =>
          if existsb (matches m u') (reflections (store p))
          then raise unique_violation p
          else if negb (existsb (has_id m) (messages (store p)))
          then raise foreign_key_violation p
          else
            let row := {| r_id := i; message_id := m; user_ip := u' |} in
            (inr [], set_store p {| messages := messages (store p);
                                    reflections := reflections (store p) ++ [row] |})
      end
  | UpdateCount m =>
      (inr [], set_store p {| messages := map (increment m) (messages (store p));
                              reflections := reflections (store p) |})
  | Commit => (inr [], set_snapshot p None)
  | SelectCount m =>
      (inr (map reflection_count (filter (has_id m) (messages (store p)))), p)
  | Rollback => (inr [], abort p)
  end.

(** [pool.query(...)]: the statement fails when the schedule says so,
    otherwise the engine performs it. *)
Definition exec (q : query) (p : pool) : (sqlstate + rows) * pool :=
  match failures p with
  | true :: f => raise engine_failure (set_failures p f)
  | false :: f => perform q (set_failures p f)
  | [] => perform q p
  end.

(* ================================================================= *)
(** ** Asynchronous handlers *)

Inductive error :=
| SqlError (e : sqlstate)        (* a rejected [pool.query] promise *)
| TypeError.                     (* [x.trim is not a function] and the like *)

(** An async function body: it returns, throws, or awaits a statement and
    goes on with what the statement gave. *)
Inductive prog (A : Type) : Type :=
| Ret (a : A)
| Throw (e : error)
| Await (q : query) (k : sqlstate + rows -> prog A).

Arguments Ret {A} a.
Arguments Throw {A} e.
Arguments Await {A} q k.

Fixpoint bind {A B : Type} (m : prog A) (f : A -> prog B) : prog B :=
  match m with
  | Ret a => f a
  | Throw e => Throw e
  | Await q k => Await q (fun r => bind (k r) f)
  end.

Notation "x <- m ;; k" := (bind m (fun x => k))
  (at level 61, m at next level, right associativity).
Notation "m ;;; k" := (bind m (fun _ => k))
  (at level 61, right associativity).

(** [await pool.query(q)] *)
Definition await (q : query) : prog rows :=
  Await q (fun r => match r with
                    | inl e => Throw (SqlError e)
                    | inr rs => Ret rs
                    end).

(** [try { m } catch (error) { h error }] *)
Fixpoint try_catch {A : Type} (m : prog A) (h : error -> prog A) : prog A :=
  match m with
  | Ret a => Ret a
  | Throw e => h e
  | Await q k => Await q (fun r => try_catch (k r) h)
  end.

Inductive outcome (A : Type) : Type :=
| Returned (a : A)
| Uncaught (e : error).

Arguments Returned {A} a.
Arguments Uncaught {A} e.

Definition event : Type := query * (sqlstate + rows).

(** Running a handler to its end on one connection, with the statements it
    sent and what each gave. *)
Fixpoint run {A : Type} (m : prog A) (p : pool)
  : outcome A * pool * list event :=
  match m with
  | Ret a => (Returned a, p, [])
  | Throw e => (Uncaught e, p, [])
  | Await q k =>
      let (r, p') := exec q p in
      let '(o, p'', tr) := run (k r) p' in
      (o, p'', (q, r) :: tr)
  end.

(** Running a handler up to its next [await], for requests that overlap. *)
Definition step {A : Type} (m : prog A) (p : pool) : prog A * pool :=
  match m with
  | Await q k => let (r, p') := exec q p in (k r, p')
  | _ => (m, p)
  end.

(* ================================================================= *)
(** ** Responses *)

(** The object given to [res.json]. *)
Record json := {
  success : bool;
  count : option Z;
  message : option jsstring;
  error_text : option jsstring
}.

Inductive response :=
| Json (status : Z) (b : json)
| Redirect (location : jsstring).

Definition already_reflected : response :=
  Json 200 {| success := false; count := None;
              message := Some (js "Already reflected"); error_text := None |}.

Definition reflected (n : Z) : response :=
  Json 200 {| success := true; count := Some n;
              message := None; error_text := None |}.

Definition database_error : response :=
  Json 500 {| success := false; count := None;
              message := None; error_text := Some (js "Database error") |}.

(* ================================================================= *)
(** ** [initializeDatabase] and [seedInitialData] *)

Record seed := {
  seed_text : jsstring;
  seed_category : jsstring;
  seed_author : jsstring;
  seed_reflection_count : Z
}.

Definition initialMessages : list seed :=
  [ {| seed_text := js "Today I admitted I've been pretending to be okay when I'm not. There's power in saying 'I'm struggling' out loud.";
       seed_category := js "Vulnerability";
       seed_author := js "Anonymous";
       seed_reflection_count := 7 |};
    {| seed_text := js "Growth isn't about becoming someone new, but uncovering who you've always been beneath the layers of expectation.";
       seed_category := js "Personal Growth";
       seed_author := js "Jamie";
       seed_reflection_count := 12 |};
    {| seed_text := js "I'm learning that boundaries aren't walls to keep people out, but gates that let me choose who gets to be in my garden.";
       seed_category := js "Personal Growth";
       seed_author := js "Taylor";
       seed_reflection_count := 9 |};
    {| seed_text := js "Grateful for: the quiet moment this morning with my coffee, the sun through the window, and nothing urgent demanding my attention.";
       seed_category := js "Gratitude";
       seed_author := js "Sam";
       seed_reflection_count := 5 |};
    {| seed_text := js "What if we measured success by how often we choose courage over comfort?";
       seed_category := js "Question to Ponder";
       seed_author := js "Anonymous";
       seed_reflection_count := 15 |} ].

(** [for (const msg of l) { await pool.query(INSERT ..., msg) }] *)
Fixpoint insert_all (l : list seed) : prog unit :=
  match l with
  | [] => Ret tt
  | msg :: l' =>
      await (InsertMessage (seed_text msg) (Some (seed_category msg))
                           (seed_author msg)
                           (Some (seed_reflection_count msg))) ;;;
      insert_all l'
  end.

Definition seedInitialData : prog unit := insert_all initialMessages.

(** [parseInt(result.rows[0]?.count || 0)] *)
Definition first_count (result : rows) : Z :=
  match result with
  | c :: _ => c
  | [] => 0
  end.

Definition initializeDatabase : prog unit :=
  try_catch
    (await CreateMessages ;;;
     await CreateReflections ;;;
     result <- await CountMessages ;;
     if Z.eqb (first_count result) 0 then seedInitialData else Ret tt)
    (fun _ => Ret tt).

(* ================================================================= *)
(** ** POST /share *)

(** [v.trim()] *)
Definition trim_of (v : jsvalue) : prog jsstring :=
  match v with
  | JString s => Ret (trim s)
  | _ => Throw TypeError
  end.

(** The parameter the driver sends for a value. *)
Definition prepareValue (v : jsvalue) : option jsstring :=
  match v with
  | JUndefined | JNull => None
  | JString s => Some s
  | JOther _ t => Some t
  end.

(** [s || d] on strings *)
Definition or_string (s d : jsstring) : jsstring :=
  match s with
  | [] => d
  | _ :: _ => s
  end.

Definition post_share (b : body) : prog response :=
  let message := body_message b in
  let category := default (body_category b) (js "Honest Message") in
  let author := default (body_author b) (js "Anonymous") in
  if negb (truthy message) then Ret (Redirect (js "/share?error=empty"))
  else
    trimmed <- trim_of message ;;
    if Nat.eqb (List.length trimmed) 0
    then Ret (Redirect (js "/share?error=empty"))
    else
      try_catch
        (t <- trim_of message ;;
         a <- trim_of author ;;
         await (InsertMessage t (prepareValue category)
                              (or_string a (js "Anonymous")) None) ;;;
         Ret (Redirect (js "/?success=true")))
        (fun _ => Ret (Redirect (js "/share?error=database"))).

(* ================================================================= *)
(** ** POST /reflect/:messageId *)

(** [result.rows[0]?.reflection_count || 0] *)
Definition count_or_zero (result : rows) : Z :=
  match result with
  | c :: _ => if Z.eqb c 0 then 0 else c
  | [] => 0
  end.

(** The handler from BEGIN on, reached when the existence check found no
    row. *)
Definition reflect_transaction (messageId : Z) (userIp : jsstring)
  : prog response :=
  await Begin ;;;
  await (InsertReflection messageId userIp) ;;;
  await (UpdateCount messageId) ;;;
  await Commit ;;;
  result <- await (SelectCount messageId) ;;
  Ret (reflected (count_or_zero result)).

(** The catch block: [await pool.query('ROLLBACK').catch(() => {})], then
    the 500 response, whatever the error. *)
Definition reflect_catch (e : error) : prog response :=
  try_catch (await Rollback ;;; Ret tt) (fun _ => Ret tt) ;;;
  Ret database_error.

Definition reflect (messageId : Z) (userIp : jsstring) : prog response :=
  try_catch
    (existingReflection <- await (SelectReflection messageId userIp) ;;
     if Nat.ltb 0 (List.length existingReflection)
     then Ret already_reflected
     else reflect_transaction messageId userIp)
    reflect_catch.

(** The route: [messageId] is the integer the path segment denotes, the
    voter is [getClientIp(req)]. *)
Definition post_reflect (messageId : Z) (req : request) : prog response :=
  reflect messageId (getClientIp req).

(* ================================================================= *)
(** ** The service interface *)

(** The outcomes of [registerReflection] at the boundary with the
    presentation layer. *)
Inductive status :=
| Registered (n : Z)
| AlreadyRegistered
| NotFound
| StorageError.

(** How a response reads as an outcome: [success: true] with its count,
    [success: false] with status 200, and the 500 response, which are the
    three responses of the handler; a 404, which no handler sends, would
    read as [NotFound]. *)
Definition status_of (r : outcome response) : option status :=
  match r with
  | Returned (Json 200 b) =>
      if success b
      then match count b with
           | Some n => Some (Registered n)
           | None => None
           end
      else Some AlreadyRegistered
  | Returned (Json 500 _) => Some StorageError
  | Returned (Json 404 _) => Some NotFound
  | _ => None
  end.

Definition registerReflection (messageId : Z) (voterIdentity : jsstring)
  (p : pool) : option status * pool :=
  let '(r, p', _) := run (reflect messageId voterIdentity) p in
  (status_of r, p').

(** The requests that change the tables, and a server run over a list of
    them, each with the schedule of engine failures met while it ran. *)
Inductive operation :=
| Initialize
| Share (b : body)
| Reflect (messageId : Z) (req : request).

Definition handle (o : operation) (p : pool) : pool :=
  match o with
  | Initialize => snd (fst (run initializeDatabase p))
  | Share b => snd (fst (run (post_share b) p))
  | Reflect m req => snd (fst (run (post_reflect m req) p))
  end.

Fixpoint serve (l : list (operation * list bool)) (p : pool) : pool :=
  match l with
  | [] => p
  | (o, f) :: l' => serve l' (handle o (set_failures p f))
  end.

(** A database just created: no row, sequences at their start. *)
Definition empty_pool : pool :=
  {| store := {| messages := []; reflections := [] |};
     snapshot := None;
     messages_id_seq := 1;
     reflections_id_seq := 1;
     failures := [] |}.

(* ================================================================= *)
(** ** Invariants of the tables *)

(** [count(Reflection where message_id = m)] *)
Definition ledger_count (t : tables) (m : Z) : nat :=
  List.length (filter (fun r => Z.eqb (message_id r) m) (reflections t)).

(** The counter invariant: every message's [reflection_count] is its ledger
    count. *)
Definition counter_invariant (t : tables) : bool :=
  forallb (fun r => Z.eqb (reflection_count r)
                          (Z.of_nat (ledger_count t (id r))))
          (messages t).

(** [reflection_count] of the message with a given id, if there is one. *)
Definition count_of (t : tables) (m : Z) : option Z :=
  option_map reflection_count (find (has_id m) (messages t)).

(** UNIQUE(message_id, user_ip) *)
Definition unique_ledger (t : tables) : Prop :=
  forall m u, (List.length (filter (matches m u) (reflections t)) <= 1)%nat.

(** message_id REFERENCES messages(id) *)
Definition references_hold (t : tables) : Prop :=
  forall r, In r (reflections t) ->
            existsb (has_id (message_id r)) (messages t) = true.

(** Every id in use was drawn from the sequence. *)
Definition ids_below (n : Z) (t : tables) : Prop :=
  forall r, In r (messages t) -> id r < n.

Definition consistent_tables (n : Z) (t : tables) : Prop :=
  unique_ledger t /\ references_hold t /\ ids_below n t.

Definition consistent (p : pool) : Prop :=
  consistent_tables (messages_id_seq p) (store p) /\
  forall t, snapshot p = Some t -> consistent_tables (messages_id_seq p) t.

(** No transaction block is open: the state between requests. *)
Definition quiescent (p : pool) : Prop := snapshot p = None.

Definition failed (ev : event) : bool :=
  match snd ev with
  | inl _ => true
  | inr _ => false
  end.

(** The statements of the transaction block of [reflect]. *)
Definition in_transaction (q : query) : bool :=
  match q with
  | Begin | InsertReflection _ _ | UpdateCount _ | Commit => true
  | _ => false
  end.

(** The voter-identity derivation as the specification words it: the first
    element of the header when the header is present, else the request IP,
    else the literal. *)
Definition identity_as_specified (req : request) : jsstring :=
  match x_forwarded_for req with
  | Some h => nth 0 (split comma h) []
  | None => match ip req with
            | Some a => a
            | None => js "unknown"
            end
  end.

(** The handler resumed after an existence check that found no row: what a
    request runs when another request's registration commits in between. *)
Definition reflect_after_check (messageId : Z) (userIp : jsstring)
  : prog response :=
  try_catch (reflect_transaction messageId userIp) reflect_catch.

(* ================================================================= *)
(** ** Sample states and requests *)

(** The database after the first start-up. *)
Definition seeded_pool : pool := handle Initialize empty_pool.

Definition voter5 : jsstring := js "203.0.113.5".
Definition voter9 : jsstring := js "203.0.113.9".

Definition hello : body :=
  {| body_message := JString (js "  hello  ");
     body_category := JUndefined;
     body_author := JUndefined |}.

(** The database after one submission and no seeding. *)
Definition one_message_pool : pool := handle (Share hello) empty_pool.

Definition direct_request : request :=
  {| x_forwarded_for := None; ip := Some voter5 |}.

Definition anonymous_request : request :=
  {| x_forwarded_for := None; ip := None |}.

(** A forwarded header whose first element is empty. *)
Definition empty_first_request : request :=
  {| x_forwarded_for := Some (js ",10.0.0.1"); ip := Some voter5 |}.


(** A voter identity of 46 characters. *)
Definition long_voter : jsstring := repeat 97%N 46.

(** A voter identity of 45 characters and a trailing space. *)
Definition padded_voter : jsstring := repeat 97%N 45 ++ [32%N].

(** A run in which [initializeDatabase] never meets an empty [messages]
    table, so that it never seeds. *)
Fixpoint never_seeds (l : list (operation * list bool)) (p : pool) : Prop :=
  match l with
  | [] => True
  | (o, f) :: l' =>
      (o = Initialize -> messages (store (set_failures p f)) <> []) /\
      never_seeds l' (handle o (set_failures p f))
  end.

(* ================================================================= *)
(** ** Tactics for running a handler symbolically *)

(** The next entry of the schedule of failures: none left, a failure, or
    no failure. *)
Ltac next_failure :=
  match goal with
  | |- context [match ?f with [] => _ | _ :: _ => _ end] =>
      is_var f; destruct f as [|[|] f]
  end.

(** The tests the engine makes on the data. *)
Ltac split_data :=
  match goal with
  | |- context [match filter (matches ?m ?u) ?R with _ => _ end] =>
      destruct (filter (matches m u) R) eqn:?
  | |- context [match varchar ?n ?u with _ => _ end] =>
      destruct (varchar n u) eqn:?
  | |- context [if existsb ?f ?l then _ else _] =>
      destruct (existsb f l) eqn:?
  | |- context [if negb (existsb ?f ?l) then _ else _] =>
      destruct (existsb f l) eqn:?
  end.

(* ================================================================= *)
(** ** Seeding, row by row *)

(** The rows that the INSERTs of [seedInitialData] store for a list of
    seed messages, the first with id [i]. *)
Fixpoint seed_rows (i : Z) (l : list seed) : list message_row :=
  match l with
  | [] => []
  | s :: l' =>
      {| id := i; text := seed_text s; category := Some (seed_category s);
         author := seed_author s;
         reflection_count := seed_reflection_count s |}
      :: seed_rows (i + 1) l'
  end.

(** id SERIAL PRIMARY KEY *)
Definition unique_ids (t : tables) : Prop := NoDup (map id (messages t)).

(** [SELECT SUM(reflection_count) FROM messages], NULL on an empty table. *)
Definition sum_counts (t : tables) : option Z :=
  match messages t with
  | [] => None
  | _ :: _ => Some (fold_right Z.add 0 (map reflection_count (messages t)))
  end.

(** A message row is kept, with its counter not lowered. *)
Definition kept (r : message_row) (t : tables) : Prop :=
  exists r', In r' (messages t) /\ id r' = id r /\ text r' = text r /\
             category r' = category r /\ author r' = author r /\
             reflection_count r <= reflection_count r'.

(** A seed message whose display strings fit their columns. *)
Definition seed_fits (s : seed) : Prop :=
  (List.length (seed_category s) <= 50)%nat /\
  (List.length (seed_author s) <= 100)%nat.

(** A submission with a blank author and an empty category. *)
Definition blank_author : body :=
  {| body_message := JString (js "hi");
     body_category := JString [];
     body_author := JString (js "   ") |}.

(** A submission whose author is [null], as a JSON body can have it. *)
Definition null_author : body :=
  {| body_message := JString (js "hi");
     body_category := JUndefined;
     body_author := JNull |}.

(** A submission whose message is the number 5. *)
Definition number_message : body :=
  {| body_message := JOther true (js "5");
     body_category := JUndefined;
     body_author := JUndefined |}.

(* ================================================================= *)
(** ** GET / *)

(** The locals given to [res.render('pages/home', ...)]. *)
Record home := {
  home_messages : list message_row;
  totalReflections : Z;
  cssAvailable : bool;
  home_error : option jsstring
}.

(** A SELECT that [query] does not list: it fails when the schedule says
    so, like any statement, and otherwise reads the tables. *)
Definition select {A : Type} (f : tables -> A) (p : pool)
  : (sqlstate + A) * pool :=
  match failures p with
  | true :: fs => (inl engine_failure, abort (set_failures p fs))
  | false :: fs => (inr (f (store p)), set_failures p fs)
  | [] => (inr (f (store p)), p)
  end.

(** [parseInt(totalReflections.rows[0]?.total || 0, 10)] *)
Definition total_or_zero (total : option Z) : Z :=
  match total with
  | Some n => n
  | None => 0
  end.

(** The catch block of the route. *)
Definition home_failed : home :=
  {| home_messages := []; totalReflections := 0; cssAvailable := false;
     home_error := Some (js "Failed to load messages") |}.

(** The route.  [recent] is the engine's answer to
    [SELECT * FROM messages ORDER BY created_at DESC LIMIT 10], which
    depends on a column the rows here do not carry, and [css] is what
    [fs.existsSync] says of the style sheet. *)
Definition get_home (recent : tables -> list message_row) (css : bool)
  (p : pool) : home * pool :=
  match select recent p with
  | (inr result, p1) =>
      match select sum_counts p1 with
      | (inr total, p2) =>
          ({| home_messages := result;
              totalReflections := total_or_zero total;
              cssAvailable := css; home_error := None |}, p2)
      | (inl _, p2) => (home_failed, p2)
      end
  | (inl _, p1) => (home_failed, p1)
  end.

(** The sum of the counters, as the home page shows it. *)
Definition total_reflections (t : tables) : Z :=
  total_or_zero (sum_counts t).

(* ================================================================= *)
(** ** POST /reflect/:messageId, the CommonJS servers *)

(** The [count] field of a body the CommonJS handler sends: absent,
    [null], or a number. *)
Inductive count_field :=
| NoCount
| NullCount
| Count (n : Z).

(** The object the CommonJS handler gives to [res.json]. *)
Record cjs_json := {
  cjs_success : bool;
  cjs_count : count_field;
  cjs_message : option jsstring;
  cjs_error : option jsstring
}.

Inductive cjs_response :=
| CjsJson (status : Z) (b : cjs_json).

(** [{ success: false, message: 'Already reflected', count: null }] *)
Definition cjs_already_reflected : cjs_response :=
  CjsJson 200 {| cjs_success := false; cjs_count := NullCount;
                 cjs_message := Some (js "Already reflected");
                 cjs_error := None |}.

Definition cjs_reflected (n : Z) : cjs_response :=
  CjsJson 200 {| cjs_success := true; cjs_count := Count n;
                 cjs_message := None; cjs_error := None |}.

Definition cjs_database_error : cjs_response :=
  CjsJson 500 {| cjs_success := false; cjs_count := NoCount;
                 cjs_message := None;
                 cjs_error := Some (js "Database error") |}.

(** The handler of the two CommonJS variants of the server: BEGIN comes
    before the existence check, the check's positive answer is followed by
    a ROLLBACK and a response with [count: null], and the ROLLBACK of the
    catch block is awaited without a catch of its own.  The UPDATE has a
    RETURNING clause whose row is not read. *)
Definition reflect_cjs (messageId : Z) (userIp : jsstring)
  : prog cjs_response :=
  try_catch
    (await Begin ;;;
     existingReflection <- await (SelectReflection messageId userIp) ;;
     if Nat.ltb 0 (List.length existingReflection)
     then await Rollback ;;; Ret cjs_already_reflected
     else
       await (InsertReflection messageId userIp) ;;;
       await (UpdateCount messageId) ;;;
       await Commit ;;;
       result <- await (SelectCount messageId) ;;
       Ret (cjs_reflected (count_or_zero result)))
    (fun _ => await Rollback ;;; Ret cjs_database_error).

(** The last statement of a run was a ROLLBACK and it failed. *)
Definition ended_in_failed_rollback (tr : list event) : bool :=
  match last tr (Begin, inr []) with
  | (Rollback, inl _) => true
  | _ => false
  end.

(** The counters of a list of rows, added up. *)
Definition sum_of (M : list message_row) : Z :=
  fold_right Z.add 0 (map reflection_count M).

(** The number of ledger rows. *)
Definition ledger_size (t : tables) : Z :=
  Z.of_nat (List.length (reflections t)).

(** A listing, for want of [created_at]: the rows from the last one
    inserted, ten at most. *)
Definition newest_first (t : tables) : list message_row :=
  firstn 10 (rev (messages t)).

(* ================================================================= *)
(** ** The reflect button ([public/js/main.js]) *)

(** The three messages the click handler can put on the page. *)
Inductive flash :=
| ReflectionAdded            (* 'Reflection added', on #4caf50 *)
| YouAlreadyReflected        (* 'You already reflected on this message' *)
| FailedToAddReflection.     (* 'Failed to add reflection', on #f44336 *)

(** The text of the [.reflect-count] element: what the page was rendered
    with, or what the handler assigned from [data.count]. *)
Inductive count_text :=
| Rendered (s : jsstring)
| Assigned (c : option Z).

(** What a [setTimeout] callback of the handler does when it runs. *)
Inductive callback :=
| RestoreText (originalText : option jsstring)
| RemoveFlash (f : flash).

(** What the handler reads and writes of a [.reflect-btn]: its classes,
    three style properties, and its two children, each present or not. *)
Record button := {
  classList : list string;
  opacity : string;
  backgroundColor : string;
  borderColor : string;
  reflect_count : option count_text;
  reflect_text : option jsstring
}.

Record page := {
  btn : button;
  flashes : list flash;              (* children appended to the body *)
  timers : list (Z * callback)       (* pending timeouts, delay in ms *)
}.

Definition contains (c : string) (l : list string) : bool :=
  existsb (String.eqb c) l.

(** [classList.add] and [classList.remove] *)
Definition add_class (c : string) (l : list string) : list string :=
  if contains c l then l else l ++ [c].

Definition remove_class (c : string) (l : list string) : list string :=
  filter (fun x => negb (String.eqb c x)) l.

(** [if (originalText)] *)
Definition has_text (o : option jsstring) : bool :=
  match o with
  | Some (_ :: _) => true
  | _ => false
  end.

Definition set_button (pg : page) (b : button) : page :=
  {| btn := b; flashes := flashes pg; timers := timers pg |}.

Definition set_timeout (c : callback) (d : Z) (pg : page) : page :=
  {| btn := btn pg; flashes := flashes pg; timers := timers pg ++ [(d, c)] |}.

(** A message is appended to the body and its removal is scheduled. *)
Definition show (f : flash) (pg : page) : page :=
  set_timeout (RemoveFlash f) 2000
    {| btn := btn pg; flashes := flashes pg ++ [f]; timers := timers pg |}.

(** The handler up to [await fetch(...)].  [None]: the button is loading
    and the handler returns at once.  Otherwise the captured
    [originalText] and the page as it is while the request is out. *)
Definition click_start (pg : page) : option (option jsstring * page) :=
  let b := btn pg in
  let originalText := reflect_text b in
  if contains "loading" (classList b) then None
  else
    Some (originalText,
          set_button pg
            {| classList := add_class "loading" (classList b);
               opacity := "0.7";
               backgroundColor := backgroundColor b;
               borderColor := borderColor b;
               reflect_count := reflect_count b;
               reflect_text := if has_text originalText
                               then Some (js "Reflecting...")
                               else reflect_text b |}).

(** What [await fetch] and [await response.json()] give: a rejection, or
    the parsed body, whatever the HTTP status. *)
Inductive fetched :=
| Rejected
| Parsed (data : json).

(** [data.message === 'Already reflected'] *)
Definition says_already (data : json) : bool :=
  match message data with
  | Some s => str_eqb s (js "Already reflected")
  | None => false
  end.

(** The try block after the two awaits. *)
Definition on_data (originalText : option jsstring) (data : json)
  (pg : page) : page :=
  let b := btn pg in
  if success data then
    show ReflectionAdded
      (set_timeout (RestoreText originalText) 1500
         (set_button pg
            {| classList := add_class "reflected" (classList b);
               opacity := opacity b;
               backgroundColor := "#e3f2ff";
               borderColor := "#3a86ff";
               reflect_count := match reflect_count b with
                                | Some _ => Some (Assigned (count data))
                                | None => None
                                end;
               reflect_text := reflect_text b |}))
  else if says_already data then
    show YouAlreadyReflected
      (set_button pg
         {| classList := add_class "already-reflected" (classList b);
            opacity := opacity b;
            backgroundColor := "#ffecb3";
            borderColor := "#ffb300";
            reflect_count := reflect_count b;
            reflect_text := reflect_text b |})
  else pg.

(** The finally block. *)
Definition finally (originalText : option jsstring) (pg : page) : page :=
  let b := btn pg in
  set_timeout (RestoreText originalText) 1000
    (set_button pg
       {| classList := remove_class "loading" (classList b);
          opacity := "";
          backgroundColor := backgroundColor b;
          borderColor := borderColor b;
          reflect_count := reflect_count b;
          reflect_text := reflect_text b |}).

(** The handler from the answer on: try or catch, then finally. *)
Definition click_end (originalText : option jsstring) (f : fetched)
  (pg : page) : page :=
  finally originalText
    (match f with
     | Parsed data => on_data originalText data pg
     | Rejected => show FailedToAddReflection pg
     end).

Fixpoint remove_first (f : flash) (l : list flash) : list flash :=
  match l with
  | [] => []
  | x :: l' =>
      match f, x with
      | ReflectionAdded, ReflectionAdded
      | YouAlreadyReflected, YouAlreadyReflected
      | FailedToAddReflection, FailedToAddReflection => l'
      | _, _ => x :: remove_first f l'
      end
  end.

(** A timeout runs. *)
Definition fire (c : callback) (pg : page) : page :=
  match c with
  | RestoreText originalText =>
      if has_text originalText
      then match reflect_text (btn pg) with
           | Some _ =>
               set_button pg
                 {| classList := classList (btn pg);
                    opacity := opacity (btn pg);
                    backgroundColor := backgroundColor (btn pg);
                    borderColor := borderColor (btn pg);
                    reflect_count := reflect_count (btn pg);
                    reflect_text := originalText |}
           | None => pg
           end
      else pg
  | RemoveFlash f =>
      {| btn := btn pg; flashes := remove_first f (flashes pg);
         timers := timers pg |}
  end.

(** The request of the handler against the server: the body of any JSON
    response is parsed; a request that gets no JSON is a rejection. *)
Definition fetch_reflect (m : Z) (req : request) (p : pool)
  : fetched * pool :=
  let '(o, p', _) := run (post_reflect m req) p in
  (match o with
   | Returned (Json _ b) => Parsed b
   | _ => Rejected
   end, p').

(** One click on the button of message [m], start to end. *)
Definition click (m : Z) (req : request) (pg : page) (p : pool)
  : page * pool :=
  match click_start pg with
  | None => (pg, p)
  | Some (originalText, pg1) =>
      let (f, p') := fetch_reflect m req p in
      (click_end originalText f pg1, p')
  end.

(** A button that is not loading, with both children, showing 7. *)
Definition fresh_button : page :=
  {| btn := {| classList := ["reflect-btn"%string];
               opacity := ""; backgroundColor := ""; borderColor := "";
               reflect_count := Some (Rendered (js "7"));
               reflect_text := Some (js "Reflect") |};
     flashes := []; timers := [] |}.

(** Two requests from one address that differ in the forwarded header. *)
Definition forwarded_a : request :=
  {| x_forwarded_for := Some (js "198.51.100.1, 10.0.0.1"); ip := Some voter5 |}.

Definition forwarded_b : request :=
  {| x_forwarded_for := Some (js "198.51.100.2"); ip := Some voter5 |}.

(* ================================================================= *)
(** * Properties *)

(* ================================================================= *)
(** ** Strings *)

Lemma str_eqb_eq (a b : jsstring) : str_eqb a b = true <-> a = b.
Proof.
  revert b; induction a as [|x a IH]; intros [|y b]; simpl; split;
    try congruence; try reflexivity.
  - intros H. apply andb_true_iff in H as [H1 H2].
    apply N.eqb_eq in H1. apply IH in H2. congruence.
  - intros H. injection H as -> ->. rewrite N.eqb_refl. simpl.
    now apply IH.
Qed.

Lemma str_eqb_refl (a : jsstring) : str_eqb a a = true.
Proof. now apply str_eqb_eq. Qed.

Lemma trimStart_nil (s : jsstring) :
  trimStart s = [] <-> forallb is_white_space s = true.
Proof.
  induction s as [|c s IH]; simpl; [tauto|].
  destruct (is_white_space c) eqn:E; simpl; [exact IH|].
  split; discriminate.
Qed.

Lemma trimStart_head (s : jsstring) :
  match trimStart s with
  | [] => True
  | c :: _ => is_white_space c = false
  end.
Proof.
  induction s as [|c s IH]; simpl; [exact I|].
  destruct (is_white_space c) eqn:E; [exact IH | exact E].
Qed.

Lemma trimEnd_nil (s : jsstring) :
  trimEnd s = [] <-> forallb is_white_space s = true.
Proof.
  unfold trimEnd. split.
  - intros H. apply (f_equal (@rev N)) in H. rewrite rev_involutive in H.
    simpl in H. apply trimStart_nil in H.
    rewrite forallb_forall in *. intros x Hx. apply H. now apply in_rev in Hx.
  - intros H. assert (T : trimStart (rev s) = []).
    { apply trimStart_nil. rewrite forallb_forall in *. intros x Hx.
      apply H. now apply in_rev. }
    now rewrite T.
Qed.

(** [trim] leaves nothing exactly of the strings made of white space. *)
Lemma trim_nil (s : jsstring) :
  trim s = [] <-> forallb is_white_space s = true.
Proof.
  unfold trim. rewrite trimEnd_nil. split.
  - intros H. apply trimStart_nil.
    pose proof (trimStart_head s) as Hh.
    destruct (trimStart s) as [|c t]; [reflexivity|].
    simpl in H. rewrite Hh in H. discriminate.
  - intros H. apply trimStart_nil in H. now rewrite H.
Qed.

(** The first element of [split]: the text before the first separator. *)
Lemma split_first (sep : N) (s : jsstring) :
  exists e ws, split sep s = e :: ws /\
    ~ In sep e /\
    (s = e /\ ws = [] \/ exists t, s = e ++ sep :: t /\ ws = split sep t).
Proof.
  induction s as [|c s (e & ws & Hs & Hn & Hr)]; simpl.
  - exists [], []. repeat split; auto.
  - destruct (N.eqb c sep) eqn:E.
    + apply N.eqb_eq in E. subst c. exists [], (split sep s).
      repeat split; auto. right. now exists s.
    + apply N.eqb_neq in E. rewrite Hs. exists (c :: e), ws.
      repeat split.
      * intros [H|H]; [congruence | tauto].
      * destruct Hr as [[-> ->] | (t & -> & ->)]; [now left|].
        right. now exists t.
Qed.

Lemma existsb_filter {A} (f : A -> bool) (l : list A) :
  existsb f l = match filter f l with [] => false | _ :: _ => true end.
Proof.
  induction l as [|x l IH]; simpl; [reflexivity|].
  destruct (f x); simpl; [reflexivity | exact IH].
Qed.




Lemma reflect_cases (m : Z) (u : jsstring) (p p' : pool) r tr :
  quiescent p ->
  run (reflect m u) p = (r, p', tr) ->
  quiescent p' /\ messages_id_seq p' = messages_id_seq p /\
  ( (r = Returned already_reflected /\ store p' = store p /\
     existsb (matches m u) (reflections (store p)) = true /\
     existsb failed tr = false)
  \/ (r = Returned database_error /\ store p' = store p /\
      existsb failed tr = true)
  \/ (exists u',
        varchar 45 u = Some u' /\
        existsb (matches m u) (reflections (store p)) = false /\
        existsb (matches m u') (reflections (store p)) = false /\
        existsb (has_id m) (messages (store p)) = true /\
        store p' =
          {| messages := map (increment m) (messages (store p));
             reflections := reflections (store p) ++
               [{| r_id := reflections_id_seq p; message_id := m;
                   user_ip := u' |}] |} /\
        existsb (fun ev => failed ev && in_transaction (fst ev)) tr = false /\
        ( (r = Returned (reflected (count_or_zero
                 (map reflection_count
                    (filter (has_id m)
                       (map (increment m) (messages (store p))))))) /\
           existsb failed tr = false)
        \/ (r = Returned database_error /\ existsb failed tr = true)))).
Proof.
  unfold quiescent. destruct p as [[M R] sn s1 s2 f]. simpl. intros ->.
  unfold reflect, reflect_transaction, reflect_catch, exec.
  rewrite (existsb_filter (matches m u)).
  repeat (simpl; unfold exec, raise, abort; simpl; first [next_failure | split_data]).
  all: simpl; unfold exec, raise, abort; simpl.
  all: try (intros Hrun; injection Hrun as <- <- <-; simpl).
  all: try (split; [reflexivity | split; [reflexivity|]]).
  all: try (left; repeat split; reflexivity).
  all: try (right; left; repeat split; reflexivity).
  all: try (right; right; eexists; repeat split; try eassumption; try reflexivity;
       first [left; split; reflexivity | right; split; reflexivity]).

Qed.

Lemma post_share_cases (b : body) (p p' : pool) r tr :
  quiescent p ->
  run (post_share b) p = (r, p', tr) ->
  quiescent p' /\ reflections (store p') = reflections (store p) /\
  messages_id_seq p <= messages_id_seq p' /\
  ( (messages (store p') = messages (store p) /\
     r <> Returned (Redirect (js "/?success=true")))
  \/ (exists s row,
        body_message b = JString s /\ trim s <> [] /\
        messages (store p') = messages (store p) ++ [row] /\
        id row = messages_id_seq p /\
        messages_id_seq p' = messages_id_seq p + 1 /\
        text row = trim s /\ reflection_count row = 0 /\
        (body_category b = JUndefined ->
         category row = Some (js "Honest Message")) /\
        (body_author b = JUndefined -> author row = js "Anonymous") /\
        r = Returned (Redirect (js "/?success=true")))).
Proof.
  unfold quiescent. destruct p as [[M R] sn s1 s2 f].
  destruct b as [msg cat auth]. simpl. intros ->.
  unfold post_share. simpl.
  destruct msg as [| |s|[] x]; simpl.
  1,2,5: intros Hrun; injection Hrun as <- <- <-; simpl;
    repeat split; try lia; left; split; [reflexivity | discriminate].
  2: { intros Hrun; injection Hrun as <- <- <-; simpl;
    repeat split; try lia; left; split; [reflexivity | discriminate]. }
  destruct s as [|c s]; simpl.
  { intros Hrun; injection Hrun as <- <- <-; simpl;
    repeat split; try lia; left; split; [reflexivity | discriminate]. }
  destruct (trim (c :: s)) as [|c' t] eqn:Et; simpl.
  { intros Hrun; injection Hrun as <- <- <-; simpl;
    repeat split; try lia; left; split; [reflexivity | discriminate]. }
  destruct auth as [| |a|ta xa]; destruct cat as [| |c0|tc xc];
    repeat (simpl; unfold exec, raise, abort, option_map; simpl;
            first [next_failure | split_data]).
  all: simpl; unfold exec, raise, abort; simpl.
  all: try (intros Hrun; injection Hrun as <- <- <-; simpl).
  all: try (split; [reflexivity | split; [reflexivity | split; [lia|]]]).
  all: try (left; split; [reflexivity | discriminate]).
  all: try (right; eexists; eexists; split; [reflexivity|];
            split; [rewrite Et; discriminate|]; rewrite Et;
            repeat split; intros; try discriminate; reflexivity).
Qed.

Lemma initialize_nonempty (p p' : pool) r tr :
  quiescent p -> messages (store p) <> [] ->
  run initializeDatabase p = (r, p', tr) ->
  store p' = store p /\ quiescent p' /\
  messages_id_seq p' = messages_id_seq p.
Proof.
  unfold quiescent. destruct p as [[M R] sn s1 s2 f]. simpl. intros -> HM.
  destruct M as [|x M]; [congruence|]. clear HM.
  unfold initializeDatabase.
  repeat (simpl; unfold exec, raise, abort; simpl; try next_failure).
  all: simpl; unfold exec, raise, abort; simpl.
  all: try (intros Hrun; injection Hrun as <- <- <-; simpl; now repeat split).

Qed.

(* ----------------------------------------------------------------- *)
(** *** The keys hold in every state the server reaches *)

Lemma matches_true m u r :
  matches m u r = true <-> message_id r = m /\ user_ip r = u.
Proof.
  unfold matches. rewrite andb_true_iff, Z.eqb_eq, str_eqb_eq. tauto.
Qed.

Lemma id_increment m r : id (increment m r) = id r.
Proof. unfold increment. now destruct (has_id m r). Qed.

Lemma existsb_has_id_increment x m l :
  existsb (has_id x) (map (increment m) l) = existsb (has_id x) l.
Proof.
  induction l as [|r l IH]; simpl; [reflexivity|].
  rewrite IH. unfold has_id at 1 3. now rewrite id_increment.
Qed.

Lemma consistent_tables_mono n n' t :
  n <= n' -> consistent_tables n t -> consistent_tables n' t.
Proof.
  intros Hn (Hu & Hr & Hi). repeat split; auto.
  intros r Hin. specialize (Hi r Hin). lia.
Qed.

Lemma abort_consistent p : consistent p -> consistent (abort p).
Proof.
  unfold abort, consistent. intros [Hs Ht].
  destruct (snapshot p) as [t|] eqn:E; simpl.
  - split; [now apply Ht | discriminate].
  - rewrite E. now split.
Qed.

Lemma next_message_id_consistent p :
  consistent p -> consistent (next_message_id p).
Proof.
  unfold consistent. simpl. intros [Hs Ht]. split.
  - eapply consistent_tables_mono; [|exact Hs]. lia.
  - intros t E. eapply consistent_tables_mono; [|now apply Ht]. lia.
Qed.

Lemma perform_consistent q p :
  consistent p -> consistent (snd (perform q p)).
Proof.
  intros Hc. destruct q; simpl; auto.
  - (* InsertMessage *)
    assert (Hc' := next_message_id_consistent p Hc).
    destruct (match c with
              | Some s => option_map Some (varchar 50 s)
              | None => Some None
              end) as [c'|]; [destruct (varchar 100 a) as [a'|] |]; simpl;
      try (now apply abort_consistent).
    destruct Hc as [(Hu & Hr & Hi) Ht]. split; simpl.
    + repeat split.
      * exact Hu.
      * intros r Hin. simpl. rewrite existsb_app. now rewrite (Hr r Hin).
      * intros r Hin. simpl in Hin. apply in_app_or in Hin as [Hin | [<- | []]].
        -- specialize (Hi r Hin). lia.
        -- simpl. lia.
    + apply Hc'.
  - (* Begin *)
    destruct (snapshot p) eqn:E; [exact Hc|].
    destruct Hc as [Hs Ht]. split; simpl; [exact Hs|].
    intros t [= <-]. exact Hs.
  - (* InsertReflection *)
    assert (Hc' : consistent (next_reflection_id p)) by exact Hc.
    destruct (varchar 45 u) as [u'|]; [|now apply abort_consistent].
    change (store (next_reflection_id p)) with (store p).
    destruct (existsb (matches m u') (reflections (store p))) eqn:Eu;
      [now apply abort_consistent|].
    destruct (existsb (has_id m) (messages (store p))) eqn:Ef; simpl;
      [|now apply abort_consistent].
    destruct Hc as [(Hu & Hr & Hi) Ht]. split; simpl; [|exact Ht].
    repeat split; simpl.
    + intros m0 u0. cbn [reflections]. rewrite filter_app, length_app. simpl.
      destruct (matches m0 u0 _) eqn:Em; simpl.
      * apply matches_true in Em. simpl in Em. destruct Em as [<- <-].
        rewrite existsb_filter in Eu.
        destruct (filter (matches m u') (reflections (store p)));
          [simpl; lia | discriminate].
      * specialize (Hu m0 u0). lia.
    + intros r Hin. simpl. apply in_app_or in Hin as [Hin | [<- | []]].
      * now apply Hr.
      * exact Ef.
    + exact Hi.
  - (* UpdateCount *)
    destruct Hc as [(Hu & Hr & Hi) Ht]. split; simpl; [|exact Ht].
    repeat split; simpl.
    + exact Hu.
    + intros r Hin. simpl. rewrite existsb_has_id_increment. now apply Hr.
    + intros r Hin. simpl in Hin. apply in_map_iff in Hin as (r0 & <- & Hin).
      rewrite id_increment. now apply Hi.
  - (* Commit *)
    destruct Hc as [Hs Ht]. split; simpl; [exact Hs | discriminate].
  - (* Rollback *)
    now apply abort_consistent.
Qed.

Lemma exec_consistent q p : consistent p -> consistent (snd (exec q p)).
Proof.
  intros Hc. unfold exec. destruct (failures p) as [|[] f].
  - now apply perform_consistent.
  - simpl. now apply abort_consistent.
  - now apply perform_consistent.
Qed.

Lemma run_consistent {A} (m : prog A) p :
  consistent p -> consistent (snd (fst (run m p))).
Proof.
  revert p. induction m as [a|e|q k IH]; intros p Hc; simpl; auto.
  pose proof (exec_consistent q p Hc) as H1.
  destruct (exec q p) as [r p1]. simpl in H1.
  specialize (IH r p1 H1).
  destruct (run (k r) p1) as [[o p2] tr]. exact IH.
Qed.

(* ----------------------------------------------------------------- *)
(** *** The counter and the ledger *)

Lemma counter_invariant_spec t :
  counter_invariant t = true <->
  forall r, In r (messages t) ->
            reflection_count r = Z.of_nat (ledger_count t (id r)).
Proof.
  unfold counter_invariant. rewrite forallb_forall.
  split; intros H r Hin; specialize (H r Hin); now apply Z.eqb_eq.
Qed.

Lemma ledger_count_insert M R M' row m :
  ledger_count {| messages := M'; reflections := R ++ [row] |} m =
  (ledger_count {| messages := M; reflections := R |} m +
   if Z.eqb (message_id row) m then 1 else 0)%nat.
Proof.
  unfold ledger_count. simpl. rewrite filter_app, length_app. simpl.
  now destruct (Z.eqb (message_id row) m).
Qed.

(** No ledger row refers to an id the sequence has not given out yet. *)
Lemma ledger_count_fresh n t m :
  consistent_tables n t -> n <= m -> ledger_count t m = 0%nat.
Proof.
  intros (_ & Hr & Hi) Hm. unfold ledger_count.
  destruct (filter _ _) as [|r l] eqn:E; [reflexivity|].
  assert (Hin : In r (filter (fun r => Z.eqb (message_id r) m) (reflections t)))
    by (rewrite E; now left).
  apply filter_In in Hin as [Hin Heq]. apply Z.eqb_eq in Heq.
  specialize (Hr r Hin). apply existsb_exists in Hr as (x & Hx & Hid).
  unfold has_id in Hid. apply Z.eqb_eq in Hid. specialize (Hi x Hx). lia.
Qed.

Lemma counter_invariant_share n M R row :
  consistent_tables n {| messages := M; reflections := R |} ->
  counter_invariant {| messages := M; reflections := R |} = true ->
  id row = n -> reflection_count row = 0 ->
  counter_invariant {| messages := M ++ [row]; reflections := R |} = true.
Proof.
  intros Hc Hinv Hid Hcount. rewrite counter_invariant_spec in *.
  simpl in *. intros r Hin. apply in_app_or in Hin as [Hin | [<- | []]].
  - now apply Hinv.
  - rewrite Hcount.
    change (ledger_count {| messages := M ++ [row]; reflections := R |} (id row))
      with (ledger_count {| messages := M; reflections := R |} (id row)).
    rewrite (ledger_count_fresh n); [reflexivity | exact Hc | lia].
Qed.

Lemma counter_invariant_reflect M R m row :
  counter_invariant {| messages := M; reflections := R |} = true ->
  message_id row = m ->
  counter_invariant {| messages := map (increment m) M;
                       reflections := R ++ [row] |} = true.
Proof.
  intros Hinv Hrow. rewrite counter_invariant_spec in *. simpl in *.
  intros r Hin. apply in_map_iff in Hin as (r0 & <- & Hin).
  rewrite id_increment, (ledger_count_insert M), Hrow.
  specialize (Hinv r0 Hin). unfold increment, has_id.
  rewrite (Z.eqb_sym m). destruct (Z.eqb (id r0) m); simpl; lia.
Qed.

Lemma consistent_empty_pool : consistent empty_pool.
Proof.
  split; [|discriminate]. repeat split.
  - intros m u. simpl. lia.
  - intros r [].
  - intros r [].
Qed.

(* ================================================================= *)
(** ** The counter invariant (C1) *)

(** One request: submission and registration preserve the invariant, and
    so does initialization of a table that is not empty. *)
Lemma handle_counter_invariant (o : operation) (p : pool) :
  consistent p -> quiescent p ->
  counter_invariant (store p) = true ->
  (o = Initialize -> messages (store p) <> []) ->
  counter_invariant (store (handle o p)) = true /\
  consistent (handle o p) /\ quiescent (handle o p).
Proof.
  intros Hc Hq Hinv Hseed.
  assert (Hc' : consistent (handle o p))
    by (destruct o; apply run_consistent; exact Hc).
  split; [|split; [exact Hc'|]]; destruct o as [|b|m req]; unfold handle.
  - destruct (run initializeDatabase p) as [[r p'] tr] eqn:E. simpl.
    apply initialize_nonempty in E as (-> & _ & _); auto.
  - destruct (run (post_share b) p) as [[r p'] tr] eqn:E. simpl.
    apply post_share_cases in E as (_ & HR & _ & H); [|exact Hq].
    destruct Hc as [Hc _].
    destruct (store p) as [M R] eqn:Ep, (store p') as [M' R'] eqn:Ep'.
    simpl in *. subst R'.
    destruct H as [[-> _] | (s & row & _ & _ & -> & Hid & _ & _ & H0 & _)];
      [exact Hinv|].
    now apply (counter_invariant_share (messages_id_seq p)).
  - unfold post_reflect.
    destruct (run (reflect m (getClientIp req)) p) as [[r p'] tr] eqn:E.
    simpl. apply reflect_cases in E as (_ & _ & H); [|exact Hq].
    destruct H as [(_ & -> & _) | [(_ & -> & _) | (u' & _ & _ & _ & _ & -> & _)]];
      try exact Hinv.
    destruct (store p) as [M R]. now apply counter_invariant_reflect.
  - destruct (run initializeDatabase p) as [[r p'] tr] eqn:E. simpl.
    apply initialize_nonempty in E as (_ & H & _); auto.
  - destruct (run (post_share b) p) as [[r p'] tr] eqn:E. simpl.
    now apply post_share_cases in E as (H & _).
  - unfold post_reflect.
    destruct (run (reflect m (getClientIp req)) p) as [[r p'] tr] eqn:E.
    simpl. now apply reflect_cases in E as (H & _).
Qed.

Lemma set_failures_quiescent p f : quiescent p -> quiescent (set_failures p f).
Proof. intros H. exact H. Qed.

(** C1, as the code has it: in every run of the server in which no empty
    [messages] table is initialized, whatever the requests and whatever
    engine failures each meets, every message's [reflection_count] equals
    its ledger count after the run (so at every quiescent point of it), if
    it did before, as in the empty database.  Message submission and
    [registerReflection] preserve the equality; the keys and quiescence are
    preserved along.  Seeding is left out. *)
Theorem counter_invariant_preserved (l : list (operation * list bool))
  (p : pool) :
  never_seeds l p ->
  consistent p -> quiescent p ->
  counter_invariant (store p) = true ->
  counter_invariant (store (serve l p)) = true /\
  consistent (serve l p) /\ quiescent (serve l p).
Proof.
  revert p. induction l as [|[o f] l IH]; intros p Hn Hc Hq Hinv; simpl.
  - split; [exact Hinv | split; assumption].
  - destruct Hn as [Hseed Hn].
    destruct (handle_counter_invariant o (set_failures p f)) as (H1 & H2 & H3);
      auto.
Qed.

Lemma counter_invariant_preserved_witness :
  counter_invariant
    (store (serve [ (Share hello, []);
                    (Reflect 1 direct_request, [false; false; false; true]);
                    (Reflect 1 direct_request, []);
                    (Initialize, []) ] empty_pool)) = true.
Proof.
  apply counter_invariant_preserved.
  - vm_compute. repeat split; discriminate.
  - apply consistent_empty_pool.
  - reflexivity.
  - reflexivity.
Defined.

(** C1, as stated, fails at the first start-up: the empty database
    satisfies the invariant and [initializeDatabase] seeds it with five
    messages whose counts are 7, 12, 9, 5 and 15 while the ledger stays
    empty. *)
Lemma seeding_breaks_counter_invariant :
  counter_invariant (store empty_pool) = true /\
  counter_invariant (store (handle Initialize empty_pool)) = false /\
  count_of (store (handle Initialize empty_pool)) 1 = Some 7 /\
  ledger_count (store (handle Initialize empty_pool)) 1 = 0%nat.
Proof. vm_compute. repeat split. Qed.

(* ================================================================= *)
(** ** A message that does not exist (C3) *)

Lemma existsb_false_In {A} (f : A -> bool) (l : list A) x :
  existsb f l = false -> In x l -> f x = false.
Proof.
  intros H Hin. destruct (f x) eqn:E; [|reflexivity].
  assert (existsb f l = true) by (apply existsb_exists; eauto). congruence.
Qed.

(** Under the foreign key, a message without a row has no ledger row. *)
Lemma no_message_no_reflection t n m u :
  consistent_tables n t ->
  existsb (has_id m) (messages t) = false ->
  existsb (matches m u) (reflections t) = false.
Proof.
  intros (_ & Hr & _) Hm.
  destruct (existsb (matches m u) (reflections t)) eqn:E; [|reflexivity].
  apply existsb_exists in E as (r & Hin & Hr').
  apply matches_true in Hr' as [<- _]. rewrite (Hr r Hin) in Hm. discriminate.
Qed.

(** C3, as the code has it: for a [messageId] that references no message,
    [registerReflection] answers with the storage failure (the 500
    response, "Database error"), never with a not-found outcome, and both
    tables are as before. *)
Theorem missing_message_is_storage_error (m : Z) (u : jsstring) (p : pool) :
  consistent p -> quiescent p ->
  existsb (has_id m) (messages (store p)) = false ->
  fst (fst (run (reflect m u) p)) = Returned database_error /\
  fst (registerReflection m u p) = Some StorageError /\
  store (snd (registerReflection m u p)) = store p.
Proof.
  intros [Hc _] Hq Hm. unfold registerReflection.
  destruct (run (reflect m u) p) as [[r p'] tr] eqn:E. simpl.
  apply reflect_cases in E as (_ & _ & H); [|exact Hq].
  rewrite (no_message_no_reflection _ _ m u Hc Hm) in H.
  destruct H as [(_ & _ & H & _) | [(-> & -> & _) | (u' & _ & _ & _ & H & _)]];
    try congruence.
  now repeat split.
Qed.

Lemma missing_message_is_storage_error_witness :
  fst (fst (run (reflect 99 voter5) seeded_pool)) = Returned database_error /\
  fst (registerReflection 99 voter5 seeded_pool) = Some StorageError /\
  store (snd (registerReflection 99 voter5 seeded_pool)) = store seeded_pool.
Proof.
  apply missing_message_is_storage_error.
  - apply run_consistent, consistent_empty_pool.
  - reflexivity.
  - reflexivity.
Defined.

(** C3, as stated, fails: no message has id 99 after the first start-up,
    and the outcome is the storage failure, not NotFound. *)
Lemma missing_message_not_reported_not_found :
  existsb (has_id 99) (messages (store seeded_pool)) = false /\
  fst (registerReflection 99 voter5 seeded_pool) = Some StorageError /\
  fst (registerReflection 99 voter5 seeded_pool) <> Some NotFound.
Proof. vm_compute. repeat split. discriminate. Qed.

(* ================================================================= *)
(** ** Atomicity (C4) *)

(** C4: a completed [registerReflection] leaves no transaction block open
    and either leaves both tables as they were or has appended exactly one
    ledger row for the message and incremented that message's counter; and
    when a statement of the block (BEGIN, the INSERT, the UPDATE, COMMIT)
    fails, both tables are as they were. *)
Theorem registration_atomic (m : Z) (u : jsstring) (p p' : pool)
  (r : outcome response) (tr : list event) :
  quiescent p ->
  run (reflect m u) p = (r, p', tr) ->
  quiescent p' /\
  (store p' = store p \/
   exists row,
     message_id row = m /\
     existsb (has_id m) (messages (store p)) = true /\
     reflections (store p') = reflections (store p) ++ [row] /\
     messages (store p') = map (increment m) (messages (store p))) /\
  (existsb (fun ev => failed ev && in_transaction (fst ev)) tr = true ->
   store p' = store p).
Proof.
  intros Hq E. apply reflect_cases in E as (Hq' & _ & H); [|exact Hq].
  split; [exact Hq'|].
  destruct H as [(_ & -> & _) | [(_ & -> & _) | (u' & _ & _ & _ & Hm & -> & Ht & _)]];
    auto.
  split.
  - right. eexists. repeat split; simpl; auto.
  - rewrite Ht. discriminate.
Qed.

Lemma registration_atomic_witness :
  quiescent (snd (fst (run (reflect 1 voter5)
                           (set_failures seeded_pool [false; false; false; true])))) /\
  store (snd (fst (run (reflect 1 voter5)
                       (set_failures seeded_pool [false; false; false; true]))))
  = store seeded_pool.
Proof.
  destruct (run (reflect 1 voter5)
                (set_failures seeded_pool [false; false; false; true]))
    as [[r p'] tr] eqn:E.
  assert (Hq0 : quiescent (set_failures seeded_pool [false; false; false; true]))
    by reflexivity.
  pose proof (registration_atomic 1 voter5 _ p' r tr Hq0 E) as (Hq & _ & H).
  split; [exact Hq|]. apply H.
  vm_compute in E. injection E as _ _ <-. reflexivity.
Defined.

(* ================================================================= *)
(** ** The catch block (C2) *)

Lemma after_check_cases (m : Z) (u : jsstring) (p p' : pool) r tr :
  quiescent p ->
  run (reflect_after_check m u) p = (r, p', tr) ->
  quiescent p' /\
  ( (r = Returned database_error /\ store p' = store p /\
     existsb failed tr = true)
  \/ (exists u',
        varchar 45 u = Some u' /\
        existsb (matches m u') (reflections (store p)) = false /\
        existsb (has_id m) (messages (store p)) = true /\
        store p' =
          {| messages := map (increment m) (messages (store p));
             reflections := reflections (store p) ++
               [{| r_id := reflections_id_seq p; message_id := m;
                   user_ip := u' |}] |} /\
        existsb (fun ev => failed ev && in_transaction (fst ev)) tr = false)).
Proof.
  unfold quiescent. destruct p as [[M R] sn s1 s2 f]. simpl. intros ->.
  unfold reflect_after_check, reflect_transaction, reflect_catch.
  repeat (simpl; unfold exec, raise, abort; simpl; first [next_failure | split_data]).
  all: simpl; unfold exec, raise, abort; simpl.
  all: try (intros Hrun; injection Hrun as <- <- <-; simpl).
  all: try (split; [reflexivity|]).
  all: try (left; repeat split; reflexivity).
  all: try (right; eexists; repeat split; try eassumption; reflexivity).
Qed.

Lemma unique_violation_in_transaction m u tr :
  In (InsertReflection m u, inl unique_violation) tr ->
  existsb (fun ev => failed ev && in_transaction (fst ev)) tr = true /\
  existsb failed tr = true.
Proof.
  intros H. split; apply existsb_exists; eexists; (split; [exact H|reflexivity]).
Qed.

(** C2, as the code has it: the catch block does not look at the error.
    Every failure of a statement of the handler, the uniqueness violation
    of the ledger insert among them, gives the one 500 response ("Database
    error", the storage-failure outcome), and no response is a 500 without
    a failed statement.  A uniqueness violation leaves both tables as they
    were, in the handler run from its start and in the handler resumed
    after an existence check that a concurrent duplicate has outdated. *)
Theorem failure_is_database_error (m : Z) (u : jsstring) (p : pool) :
  quiescent p ->
  (forall r p' tr,
     run (reflect m u) p = (r, p', tr) ->
     (existsb failed tr = true <-> r = Returned database_error) /\
     (In (InsertReflection m u, inl unique_violation) tr ->
      status_of r = Some StorageError /\ store p' = store p)) /\
  (forall r p' tr,
     run (reflect_after_check m u) p = (r, p', tr) ->
     In (InsertReflection m u, inl unique_violation) tr ->
     r = Returned database_error /\ status_of r = Some StorageError /\
     store p' = store p).
Proof.
  intros Hq. split; intros r p' tr E.
  - apply reflect_cases in E as (_ & _ & H); [|exact Hq]. split.
    + destruct H as [(-> & _ & _ & ->) | [(-> & _ & ->) |
        (u' & _ & _ & _ & _ & _ & _ & [(-> & ->) | (-> & ->)])]];
        split; try reflexivity; discriminate.
    + intros Hin. apply unique_violation_in_transaction in Hin as [H1 H2].
      destruct H as [(_ & _ & _ & H) | [(-> & -> & _) |
        (u' & _ & _ & _ & _ & _ & H & _)]]; try congruence.
      now split.
  - intros Hin. apply unique_violation_in_transaction in Hin as [H1 H2].
    apply after_check_cases in E as (_ & H); [|exact Hq].
    destruct H as [(-> & -> & _) | (u' & _ & _ & _ & _ & H)]; [|congruence].
    now repeat split.
Qed.

(** C2, as stated, fails.  A request checks that voter 203.0.113.5 has not
    reflected on message 1; before it goes on, a second request of the same
    voter registers the reflection; the first then resumes, its insert
    violates the uniqueness constraint, and it answers with the 500
    response, not with the already-registered outcome. *)
Lemma lost_race_reported_as_database_error :
  let '(rest, p1) := step (reflect 1 voter5) seeded_pool in
  let '(second, p2, _) := run (reflect 1 voter5) p1 in
  let '(first, p3, tr) := run rest p2 in
  rest = reflect_after_check 1 voter5 /\
  status_of second = Some (Registered 8) /\
  tr = [ (Begin, inr []);
         (InsertReflection 1 voter5, inl unique_violation);
         (Rollback, inr []) ] /\
  first = Returned database_error /\
  status_of first = Some StorageError /\
  status_of first <> Some AlreadyRegistered.
Proof. vm_compute. repeat split. discriminate. Qed.

Lemma failure_is_database_error_witness :
  fst (fst (run (reflect_after_check 1 voter5)
                (snd (fst (run (reflect 1 voter5) seeded_pool)))))
  = Returned database_error /\
  store (snd (fst (run (reflect_after_check 1 voter5)
                       (snd (fst (run (reflect 1 voter5) seeded_pool))))))
  = store (snd (fst (run (reflect 1 voter5) seeded_pool))).
Proof.
  destruct (run (reflect_after_check 1 voter5)
                (snd (fst (run (reflect 1 voter5) seeded_pool))))
    as [[r p'] tr] eqn:E.
  assert (Hq : quiescent (snd (fst (run (reflect 1 voter5) seeded_pool))))
    by reflexivity.
  destruct (failure_is_database_error 1 voter5 _ Hq) as [_ H].
  destruct (H r p' tr E) as (Hr & _ & Hs).
  - vm_compute in E. injection E as _ _ <-. right. left. reflexivity.
  - split; [exact Hr | exact Hs].
Defined.

(* ================================================================= *)
(** ** First registration and repetition (C5, C6) *)

Lemma count_or_zero_head c l : count_or_zero (c :: l) = c.
Proof.
  simpl. destruct (Z.eqb c 0) eqn:E; [|reflexivity].
  apply Z.eqb_eq in E. now subst.
Qed.

Lemma has_id_increment x m r : has_id x (increment m r) = has_id x r.
Proof. unfold has_id. now rewrite id_increment. Qed.

Lemma find_increment m l :
  find (has_id m) (map (increment m) l) =
  option_map (increment m) (find (has_id m) l).
Proof.
  induction l as [|r l IH]; simpl; [reflexivity|].
  rewrite has_id_increment. now destruct (has_id m r).
Qed.

Lemma filter_find {A} (f : A -> bool) (l : list A) :
  find f l = match filter f l with [] => None | x :: _ => Some x end.
Proof.
  induction l as [|x l IH]; simpl; [reflexivity|]. now destruct (f x).
Qed.

Lemma existsb_find {A} (f : A -> bool) (l : list A) :
  existsb f l = match find f l with Some _ => true | None => false end.
Proof.
  induction l as [|x l IH]; simpl; [reflexivity|]. now destruct (f x).
Qed.

(** What the final SELECT of the handler reads after the UPDATE. *)
Lemma select_count_after_increment m l row :
  find (has_id m) l = Some row ->
  count_or_zero (map reflection_count
                   (filter (has_id m) (map (increment m) l)))
  = reflection_count row + 1.
Proof.
  intros H. pose proof (find_increment m l) as F. rewrite H in F. simpl in F.
  rewrite filter_find in F.
  destruct (filter (has_id m) (map (increment m) l)) as [|x l'];
    [discriminate|].
  injection F as ->. cbn [map]. rewrite count_or_zero_head.
  unfold increment. apply find_some in H as [_ ->]. reflexivity.
Qed.

Lemma count_of_increment M R R' m row :
  find (has_id m) M = Some row ->
  count_of {| messages := map (increment m) M; reflections := R' |} m
  = Some (reflection_count row + 1) /\
  count_of {| messages := M; reflections := R |} m
  = Some (reflection_count row).
Proof.
  intros H. unfold count_of. simpl. rewrite find_increment, H. simpl.
  unfold increment. apply find_some in H as [_ ->]. now split.
Qed.

Lemma varchar_fits n s : (List.length s <= n)%nat -> varchar n s = Some s.
Proof.
  intros H. unfold varchar.
  destruct (Nat.leb (List.length s) n) eqn:E; [reflexivity|].
  apply Nat.leb_gt in E. lia.
Qed.

(** A first registration, when the engine fails no statement. *)
Lemma reflect_fresh (m : Z) (u : jsstring) (p : pool) row :
  quiescent p -> failures p = [] ->
  find (has_id m) (messages (store p)) = Some row ->
  (List.length u <= 45)%nat ->
  existsb (matches m u) (reflections (store p)) = false ->
  exists p' tr,
    run (reflect m u) p
    = (Returned (reflected (reflection_count row + 1)), p', tr) /\
    quiescent p' /\ failures p' = [] /\
    store p' =
      {| messages := map (increment m) (messages (store p));
         reflections := reflections (store p) ++
           [{| r_id := reflections_id_seq p; message_id := m;
               user_ip := u |}] |}.
Proof.
  unfold quiescent. destruct p as [[M R] sn s1 s2 f]. simpl.
  intros -> -> Hfind Hlen Hnew.
  unfold reflect, reflect_transaction. simpl. unfold exec. simpl.
  rewrite existsb_filter in Hnew.
  destruct (filter (matches m u) R) eqn:EF; [|discriminate]. simpl.
  unfold exec. simpl. rewrite (varchar_fits 45 u Hlen).
  rewrite existsb_filter, EF, existsb_find, Hfind. simpl.
  unfold exec. simpl.
  rewrite (select_count_after_increment m M row Hfind).
  eexists. eexists. repeat split.
Qed.

(** A repeated registration, when the engine fails no statement. *)
Lemma reflect_again (m : Z) (u : jsstring) (p : pool) :
  failures p = [] ->
  existsb (matches m u) (reflections (store p)) = true ->
  exists tr, run (reflect m u) p = (Returned already_reflected, p, tr).
Proof.
  destruct p as [[M R] sn s1 s2 f]. simpl. intros -> H.
  unfold reflect. simpl. unfold exec. simpl.
  rewrite existsb_filter in H.
  destruct (filter (matches m u) R) eqn:EF; [discriminate|]. simpl.
  eexists. reflexivity.
Qed.

Lemma matches_inserted m u R i :
  existsb (matches m u)
          (R ++ [{| r_id := i; message_id := m; user_ip := u |}]) = true.
Proof.
  rewrite existsb_app. simpl. unfold matches at 2. simpl.
  rewrite Z.eqb_refl, str_eqb_refl. simpl. apply orb_true_r.
Qed.

(** C5, as the code has it: for an existing message [M] and a voter [v]
    of at most 45 characters, the width of the ledger's [user_ip] column,
    who has not reflected on it, two calls in sequence give
    [Registered n], with [n] the prior count plus one, and then
    [AlreadyRegistered]; the second call changes neither table and the
    counter of [M] is [n] after each.  No failure of the engine is
    scheduled. *)
Theorem sequential_idempotence (M : Z) (v : jsstring) (p : pool)
  (row : message_row) :
  quiescent p -> failures p = [] ->
  find (has_id M) (messages (store p)) = Some row ->
  (List.length v <= 45)%nat ->
  existsb (matches M v) (reflections (store p)) = false ->
  let n := reflection_count row + 1 in
  let first := registerReflection M v p in
  let second := registerReflection M v (snd first) in
  fst first = Some (Registered n) /\
  fst second = Some AlreadyRegistered /\
  count_of (store (snd first)) M = Some n /\
  store (snd second) = store (snd first) /\
  count_of (store (snd second)) M = Some n.
Proof.
  intros Hq Hf Hfind Hlen Hnew n first second.
  destruct (reflect_fresh M v p row Hq Hf Hfind Hlen Hnew)
    as (p1 & tr1 & E1 & Hq1 & Hf1 & Hs1).
  assert (Hfirst : first = (Some (Registered n), p1)).
  { unfold first, registerReflection. now rewrite E1. }
  assert (Hin : existsb (matches M v) (reflections (store p1)) = true).
  { rewrite Hs1. apply matches_inserted. }
  destruct (reflect_again M v p1 Hf1 Hin) as (tr2 & E2).
  assert (Hsecond : second = (Some AlreadyRegistered, p1)).
  { unfold second. rewrite Hfirst. cbn [snd]. unfold registerReflection.
    now rewrite E2. }
  assert (Hn : count_of (store p1) M = Some n).
  { rewrite Hs1. destruct (store p) as [M0 R0].
    now apply (count_of_increment M0 R0). }
  rewrite Hsecond, Hfirst. simpl. now repeat split.
Qed.

Lemma sequential_idempotence_witness :
  fst (registerReflection 1 voter5 one_message_pool) = Some (Registered 1) /\
  fst (registerReflection 1 voter5
         (snd (registerReflection 1 voter5 one_message_pool)))
  = Some AlreadyRegistered /\
  count_of (store (snd (registerReflection 1 voter5
         (snd (registerReflection 1 voter5 one_message_pool))))) 1 = Some 1.
Proof.
  assert (Hfind : find (has_id 1) (messages (store one_message_pool))
                  = Some {| id := 1; text := js "hello";
                            category := Some (js "Honest Message");
                            author := js "Anonymous";
                            reflection_count := 0 |}) by reflexivity.
  assert (Hlen : (List.length voter5 <= 45)%nat) by (vm_compute; lia).
  destruct (sequential_idempotence 1 voter5 one_message_pool _
              eq_refl eq_refl Hfind Hlen eq_refl) as (H1 & H2 & _ & _ & H5).
  repeat split; assumption.
Defined.

(** C5, as stated, fails for an identity wider than the column.  Voter
    [padded_voter], 45 characters and a space, has not reflected on
    message 1, which exists; no failure is scheduled.  The first call
    registers, the INSERT cutting the identity to 45 characters; the
    existence check of the second call compares the uncut identity, finds
    no row, and the INSERT violates the uniqueness constraint: the second
    outcome is the storage failure, not [AlreadyRegistered]. *)
Lemma padded_voter_is_not_idempotent :
  quiescent one_message_pool /\ failures one_message_pool = [] /\
  count_of (store one_message_pool) 1 = Some 0 /\
  existsb (matches 1 padded_voter) (reflections (store one_message_pool))
  = false /\
  fst (registerReflection 1 padded_voter one_message_pool)
  = Some (Registered 1) /\
  fst (registerReflection 1 padded_voter
         (snd (registerReflection 1 padded_voter one_message_pool)))
  = Some StorageError /\
  fst (registerReflection 1 padded_voter
         (snd (registerReflection 1 padded_voter one_message_pool)))
  <> Some AlreadyRegistered.
Proof. vm_compute. repeat split. discriminate. Qed.

(** The scenario of the specification: message 1 starts at 0; voter
    203.0.113.5 registers (1), repeats (already registered, counter still
    1), and voter 203.0.113.9 registers (2). *)
Example scenario_two_voters :
  let '(s1, p1) := registerReflection 1 voter5 one_message_pool in
  let '(s2, p2) := registerReflection 1 voter5 p1 in
  let '(s3, p3) := registerReflection 1 voter9 p2 in
  count_of (store one_message_pool) 1 = Some 0 /\
  s1 = Some (Registered 1) /\
  s2 = Some AlreadyRegistered /\ count_of (store p2) 1 = Some 1 /\
  s3 = Some (Registered 2).
Proof. vm_compute. repeat split. Qed.

(** An identity that does not fit the ledger column is a failure of the
    INSERT. *)
Example long_voter_is_storage_error :
  fst (registerReflection 1 long_voter one_message_pool) = Some StorageError /\
  store (snd (registerReflection 1 long_voter one_message_pool))
  = store one_message_pool.
Proof. vm_compute. split; reflexivity. Qed.

(** One whose excess is spaces is cut to 45 characters by the INSERT: the
    existence check of a second call compares the uncut text and finds no
    row, and the uniqueness constraint is what keeps the second call from
    counting twice. *)
Example padded_voter_is_counted_once :
  let '(s1, p1) := registerReflection 1 padded_voter one_message_pool in
  let '(s2, p2) := registerReflection 1 padded_voter p1 in
  s1 = Some (Registered 1) /\ s2 = Some StorageError /\
  store p2 = store p1 /\ count_of (store p2) 1 = Some 1.
Proof. vm_compute. repeat split. Qed.



(* ================================================================= *)
(** ** Message submission (C8, C9) *)

Lemma app_one_neq {A} (l : list A) (x : A) : l ++ [x] <> l.
Proof.
  intros H. apply (f_equal (@List.length A)) in H.
  rewrite length_app in H. simpl in H. lia.
Qed.

(** A submission that the engine does not fail, with both display fields
    absent, stores the trimmed text under the fallback values. *)
Lemma post_share_stores (b : body) (p : pool) (s : jsstring) :
  quiescent p -> failures p = [] ->
  body_message b = JString s -> forallb is_white_space s = false ->
  body_category b = JUndefined -> body_author b = JUndefined ->
  exists p' tr,
    run (post_share b) p = (Returned (Redirect (js "/?success=true")), p', tr) /\
    messages (store p') = messages (store p) ++
      [{| id := messages_id_seq p; text := trim s;
          category := Some (js "Honest Message");
          author := js "Anonymous"; reflection_count := 0 |}].
Proof.
  unfold quiescent. destruct p as [[M R] sn s1 s2 f].
  destruct b as [msg cat auth]. simpl. intros -> -> -> Hs -> ->.
  assert (Ht : trim s <> []).
  { intros H. apply trim_nil in H. congruence. }
  unfold post_share. simpl.
  destruct s as [|c s]; [discriminate|]. simpl.
  destruct (trim (c :: s)) as [|c' t] eqn:Et; [congruence|]. simpl.
  unfold exec. simpl. eexists. eexists. split; reflexivity.
Qed.

(** C8: a submission whose [message] field is missing, or is a string of
    white space only, is answered with the redirect to the empty-input
    error without a statement being sent, so no row is inserted; and
    whenever a submission inserts a row, the field is a string that is not
    all white space and the stored text is that string trimmed, which is
    not empty.  Such a submission does insert when the engine fails
    nothing. *)
Theorem share_requires_text (b : body) (p : pool) :
  quiescent p ->
  (body_message b = JUndefined \/
   (exists s, body_message b = JString s /\
              forallb is_white_space s = true) ->
   run (post_share b) p
   = (Returned (Redirect (js "/share?error=empty")), p, [])) /\
  (forall r p' tr,
     run (post_share b) p = (r, p', tr) ->
     messages (store p') = messages (store p) \/
     exists s row,
       body_message b = JString s /\ forallb is_white_space s = false /\
       messages (store p') = messages (store p) ++ [row] /\
       text row = trim s /\ text row <> []) /\
  (forall s,
     body_message b = JString s -> forallb is_white_space s = false ->
     body_category b = JUndefined -> body_author b = JUndefined ->
     failures p = [] ->
     exists p' tr row,
       run (post_share b) p
       = (Returned (Redirect (js "/?success=true")), p', tr) /\
       messages (store p') = messages (store p) ++ [row] /\
       text row = trim s).
Proof.
  intros Hq. split; [|split].
  - intros [H | (s & H & Hs)]; unfold post_share; rewrite H; simpl;
      [reflexivity|].
    destruct s as [|c s]; [reflexivity|]. simpl.
    apply trim_nil in Hs. now rewrite Hs.
  - intros r p' tr E. apply post_share_cases in E as (_ & _ & _ & H);
      [|exact Hq].
    destruct H as [[H _] | (s & row & Hm & Ht & HM & _ & _ & Htext & _)];
      [now left|].
    right. exists s, row. repeat split; auto.
    + destruct (forallb is_white_space s) eqn:Ews; [|reflexivity].
      apply trim_nil in Ews. congruence.
    + congruence.
  - intros s Hm Hs Hc Ha Hf.
    destruct (post_share_stores b p s Hq Hf Hm Hs Hc Ha) as (p' & tr & E & HM).
    exists p', tr. eexists. repeat split; [exact E | exact HM | reflexivity].
Qed.

Lemma share_requires_text_witness :
  run (post_share {| body_message := JString (js "   ");
                     body_category := JUndefined;
                     body_author := JUndefined |}) empty_pool
  = (Returned (Redirect (js "/share?error=empty")), empty_pool, []) /\
  exists p' tr row,
    run (post_share hello) empty_pool
    = (Returned (Redirect (js "/?success=true")), p', tr) /\
    messages (store p') = messages (store empty_pool) ++ [row] /\
    text row = trim (js "  hello  ").
Proof.
  split.
  - apply (share_requires_text _ empty_pool eq_refl).
    right. exists (js "   "). split; reflexivity.
  - apply (share_requires_text hello empty_pool eq_refl); reflexivity.
Defined.

(** C9: whenever a submission stores a row, the row has the category
    'Honest Message' if the [category] field was absent and the author
    'Anonymous' if the [author] field was absent. *)
Theorem share_defaults (b : body) (p p' : pool) (r : outcome response)
  (tr : list event) (row : message_row) :
  quiescent p ->
  run (post_share b) p = (r, p', tr) ->
  messages (store p') = messages (store p) ++ [row] ->
  (body_category b = JUndefined -> category row = Some (js "Honest Message")) /\
  (body_author b = JUndefined -> author row = js "Anonymous").
Proof.
  intros Hq E HM. apply post_share_cases in E as (_ & _ & _ & H); [|exact Hq].
  destruct H as [[H _] | (s & row' & _ & _ & HM' & _ & _ & _ & _ & Hc & Ha & _)].
  - rewrite H in HM. symmetry in HM. now apply app_one_neq in HM.
  - rewrite HM in HM'. apply app_inv_head in HM'. injection HM' as <-.
    now split.
Qed.

Lemma share_defaults_witness :
  exists row,
    messages (store (handle (Share hello) empty_pool))
    = messages (store empty_pool) ++ [row] /\
    category row = Some (js "Honest Message") /\
    author row = js "Anonymous".
Proof.
  unfold handle.
  destruct (run (post_share hello) empty_pool) as [[r p'] tr] eqn:E.
  cbn [fst snd].
  assert (HM : messages (store p') = messages (store empty_pool) ++
                 [{| id := 1; text := js "hello";
                     category := Some (js "Honest Message");
                     author := js "Anonymous"; reflection_count := 0 |}]).
  { vm_compute in E. injection E as _ <- _. reflexivity. }
  eexists. split; [exact HM|].
  destruct (share_defaults hello empty_pool p' r tr _ eq_refl E HM) as [Hc Ha].
  split; [apply Hc | apply Ha]; reflexivity.
Defined.

(* ================================================================= *)
(** ** Voter identity (C10) *)

Lemma nth_error_split sep h :
  nth_error (split sep h) 0 = Some (nth 0 (split sep h) []).
Proof.
  destruct (split_first sep h) as (e & ws & -> & _). reflexivity.
Qed.

Lemma forwarded_first_eq req :
  forwarded_first req =
  option_map (fun h => nth 0 (split comma h) []) (x_forwarded_for req).
Proof.
  unfold forwarded_first. destruct (x_forwarded_for req); simpl;
    [apply nth_error_split | reflexivity].
Qed.

Lemma set_failures_consistent p f : consistent p -> consistent (set_failures p f).
Proof. intros H. exact H. Qed.

Lemma handle_consistent o p : consistent p -> consistent (handle o p).
Proof. intros H. destruct o; now apply run_consistent. Qed.

Lemma serve_consistent l p : consistent p -> consistent (serve l p).
Proof.
  revert p. induction l as [|[o f] l IH]; intros p H; simpl; [exact H|].
  apply IH, handle_consistent, set_failures_consistent, H.
Qed.

(** C10, as the code has it: the identity is the first comma-separated
    element of the forwarded header when the header is present and that
    element is not empty; otherwise it is the request IP when there is one
    and it is not empty; otherwise it is 'unknown'.  It is never empty.
    Requesters with neither header nor IP all get 'unknown', and in no run
    of the server does a message have more than one ledger row for it. *)
Theorem getClientIp_derivation (req : request) :
  (forall h, x_forwarded_for req = Some h ->
             nth 0 (split comma h) [] <> [] ->
             getClientIp req = nth 0 (split comma h) []) /\
  (x_forwarded_for req = None \/
   (exists h, x_forwarded_for req = Some h /\ nth 0 (split comma h) [] = []) ->
   (forall a, ip req = Some a -> a <> [] -> getClientIp req = a) /\
   (ip req = None \/ ip req = Some [] -> getClientIp req = js "unknown")) /\
  getClientIp req <> [] /\
  (x_forwarded_for req = None -> ip req = None ->
   getClientIp req = js "unknown" /\
   forall p l m,
     consistent p ->
     (List.length (filter (matches m (getClientIp req))
                          (reflections (store (serve l p)))) <= 1)%nat).
Proof.
  unfold getClientIp. rewrite forwarded_first_eq.
  destruct req as [x i]. cbn [x_forwarded_for ip].
  split; [|split; [|split]].
  - intros h -> Hne. simpl.
    destruct (nth 0 (split comma h) []); [congruence | reflexivity].
  - intros H. assert (E : or_else
        (option_map (fun h => nth 0 (split comma h) []) x) i = i).
    { destruct H as [-> | (h & -> & H)]; simpl; [reflexivity|].
      now rewrite H. }
    rewrite E. split.
    + intros a -> Ha. destruct a; [congruence | reflexivity].
    + intros [-> | ->]; reflexivity.
  - destruct x as [h|]; simpl.
    + destruct (nth 0 (split comma h) []); simpl; [|discriminate].
      destruct i as [[|c a]|]; simpl; discriminate.
    + destruct i as [[|c a]|]; simpl; discriminate.
  - intros -> ->. split; [reflexivity|].
    intros p l m Hc. destruct (serve_consistent l p Hc) as [(Hu & _) _].
    apply Hu.
Qed.

Lemma getClientIp_derivation_witness :
  getClientIp {| x_forwarded_for := Some (js "203.0.113.9, 10.0.0.1");
                 ip := Some voter5 |} = voter9 /\
  getClientIp direct_request = voter5 /\
  getClientIp anonymous_request = js "unknown" /\
  (List.length
     (filter (matches 1 (getClientIp anonymous_request))
        (reflections
           (store (serve [(Reflect 1 anonymous_request, []);
                          (Reflect 1 anonymous_request, [])]
                         seeded_pool)))) <= 1)%nat.
Proof.
  split; [|split; [|split]].
  - destruct (getClientIp_derivation
                {| x_forwarded_for := Some (js "203.0.113.9, 10.0.0.1");
                   ip := Some voter5 |}) as (H & _).
    apply (H (js "203.0.113.9, 10.0.0.1")); [reflexivity | discriminate].
  - destruct (getClientIp_derivation direct_request) as (_ & H & _).
    destruct H as [H _]; [left; reflexivity|].
    apply H; [reflexivity | discriminate].
  - destruct (getClientIp_derivation anonymous_request) as (_ & _ & _ & H).
    apply H; reflexivity.
  - destruct (getClientIp_derivation anonymous_request) as (_ & _ & _ & H).
    destruct H as [_ H]; [reflexivity | reflexivity |].
    apply H. apply run_consistent, consistent_empty_pool.
Defined.

(** C10, as stated, fails when the header is present and its first element
    is empty: the identity is then the request IP, not that element. *)
Lemma empty_first_element_falls_back :
  x_forwarded_for empty_first_request = Some (js ",10.0.0.1") /\
  identity_as_specified empty_first_request = [] /\
  getClientIp empty_first_request = voter5 /\
  getClientIp empty_first_request <> identity_as_specified empty_first_request.
Proof. vm_compute. repeat split. discriminate. Qed.

(* ================================================================= *)
(** ** Start-up *)

Lemma initialMessages_fit : Forall seed_fits initialMessages.
Proof. repeat constructor; vm_compute; lia. Qed.

(** The loop of [seedInitialData] inside the try block of
    [initializeDatabase]: it stores the rows of a prefix of the list, the
    whole list unless an INSERT fails. *)
Lemma insert_all_cases (l : list seed) :
  Forall seed_fits l ->
  forall (p p' : pool) r tr,
    quiescent p ->
    run (try_catch (insert_all l) (fun _ => Ret tt)) p = (r, p', tr) ->
    r = Returned tt /\ quiescent p' /\
    reflections (store p') = reflections (store p) /\
    exists k,
      (k <= List.length l)%nat /\
      messages (store p') =
        messages (store p) ++ seed_rows (messages_id_seq p) (firstn k l) /\
      messages_id_seq p' = messages_id_seq p + Z.of_nat k /\
      (k = List.length l \/ existsb failed tr = true).
Proof.
  induction 1 as [|s l [Hc Ha] Hl IH]; intros p p' r tr Hq E.
  - simpl in E. injection E as <- <- <-.
    split; [reflexivity|]. split; [exact Hq|]. split; [reflexivity|].
    exists 0%nat. simpl. rewrite app_nil_r.
    split; [lia|]. split; [reflexivity|]. split; [lia|]. now left.
  - unfold quiescent in Hq. destruct p as [[M R] sn s1 s2 f]. simpl in Hq.
    subst sn. cbn [insert_all bind await try_catch run] in E.
    unfold exec in E. cbn [failures] in E.
    assert (Hp : forall f',
      perform (InsertMessage (seed_text s) (Some (seed_category s))
                 (seed_author s) (Some (seed_reflection_count s)))
              {| store := {| messages := M; reflections := R |};
                 snapshot := None; messages_id_seq := s1;
                 reflections_id_seq := s2; failures := f' |}
      = (inr [],
         {| store := {| messages := M ++ seed_rows s1 [s]; reflections := R |};
            snapshot := None; messages_id_seq := s1 + 1;
            reflections_id_seq := s2; failures := f' |})).
    { intros f'. cbn [perform option_map]. rewrite (varchar_fits 50 _ Hc).
      rewrite (varchar_fits 100 _ Ha). reflexivity. }
    assert (Hok : forall f' r0 p0 tr0,
      run (try_catch (insert_all l) (fun _ => Ret tt))
          {| store := {| messages := M ++ seed_rows s1 [s]; reflections := R |};
             snapshot := None; messages_id_seq := s1 + 1;
             reflections_id_seq := s2; failures := f' |} = (r0, p0, tr0) ->
      r0 = Returned tt /\ quiescent p0 /\ reflections (store p0) = R /\
      exists k, (k <= List.length (s :: l))%nat /\
        messages (store p0) = M ++ seed_rows s1 (firstn k (s :: l)) /\
        messages_id_seq p0 = s1 + Z.of_nat k /\
        (k = List.length (s :: l) \/ existsb failed tr0 = true)).
    { intros f' r0 p0 tr0 E0.
      apply IH in E0 as (-> & Hq0 & HR & k & Hk & HM & Hs & Hf); [|reflexivity].
      split; [reflexivity|]. split; [exact Hq0|]. split; [exact HR|].
      exists (S k). cbn [store messages messages_id_seq] in *.
      split; [simpl; lia|]. split; [|split].
      - rewrite HM, <- app_assoc. reflexivity.
      - rewrite Hs. lia.
      - destruct Hf as [-> | Hf]; [now left | now right]. }
    destruct f as [|[] f]; unfold set_failures in E;
      cbn [store snapshot messages_id_seq reflections_id_seq failures] in E.
    + rewrite Hp in E.
      destruct (run _ _) as [[r0 p0] tr0] eqn:E0 in E.
      apply Hok in E0 as (-> & Hq0 & HR & k & Hk & HM & Hs & Hf).
      injection E as <- <- <-.
      split; [reflexivity|]. split; [exact Hq0|]. split; [exact HR|].
      exists k. split; [exact Hk|]. split; [exact HM|]. split; [exact Hs|].
      destruct Hf as [Hf | Hf]; [now left|]. right. simpl. exact Hf.
    + unfold raise, abort in E. simpl in E. injection E as <- <- <-.
      split; [reflexivity|]. split; [reflexivity|]. split; [reflexivity|].
      exists 0%nat. simpl. rewrite app_nil_r.
      split; [lia|]. split; [reflexivity|]. split; [lia|]. now right.
    + rewrite Hp in E.
      destruct (run _ _) as [[r0 p0] tr0] eqn:E0 in E.
      apply Hok in E0 as (-> & Hq0 & HR & k & Hk & HM & Hs & Hf).
      injection E as <- <- <-.
      split; [reflexivity|]. split; [exact Hq0|]. split; [exact HR|].
      exists k. split; [exact Hk|]. split; [exact HM|]. split; [exact Hs|].
      destruct Hf as [Hf | Hf]; [now left|]. right. simpl. exact Hf.
Qed.

(** What [initializeDatabase] does, whatever fails: it returns, leaves the
    ledger alone and no block open, and stores the rows of a prefix of the
    seed messages, none when the table has a row. *)
Lemma initialize_cases (p p' : pool) r tr :
  quiescent p ->
  run initializeDatabase p = (r, p', tr) ->
  r = Returned tt /\ quiescent p' /\
  reflections (store p') = reflections (store p) /\
  exists k,
    (k <= 5)%nat /\ (messages (store p) <> [] -> k = 0%nat) /\
    messages (store p') =
      messages (store p) ++
      seed_rows (messages_id_seq p) (firstn k initialMessages) /\
    messages_id_seq p' = messages_id_seq p + Z.of_nat k /\
    (k = 5%nat \/ existsb failed tr = true \/ messages (store p) <> []).
Proof.
  intros Hq E. destruct (messages (store p)) as [|x M] eqn:EM.
  - revert E. unfold quiescent in Hq.
    destruct p as [[M R] sn s1 s2 f]. simpl in Hq, EM. subst sn M.
    unfold initializeDatabase. remember seedInitialData as S eqn:HS.
    cbn [store messages reflections messages_id_seq].
    assert (Hseed : forall f' r0 p0 tr0,
      run (try_catch S (fun _ => Ret tt))
          {| store := {| messages := []; reflections := R |};
             snapshot := None; messages_id_seq := s1;
             reflections_id_seq := s2; failures := f' |} = (r0, p0, tr0) ->
      r0 = Returned tt /\ quiescent p0 /\ reflections (store p0) = R /\
      exists k, (k <= 5)%nat /\ ([] <> @nil message_row -> k = 0%nat) /\
        messages (store p0) = [] ++ seed_rows s1 (firstn k initialMessages) /\
        messages_id_seq p0 = s1 + Z.of_nat k /\
        (k = 5%nat \/ existsb failed tr0 = true \/ [] <> @nil message_row)).
    { intros f' r0 p0 tr0 E0. subst S.
      apply (insert_all_cases _ initialMessages_fit) in E0
        as (-> & Hq0 & HR & k & Hk & HM & Hs & Hf); [|reflexivity].
      split; [reflexivity|]. split; [exact Hq0|]. split; [exact HR|].
      exists k. split; [exact Hk|]. split; [congruence|].
      split; [exact HM|]. split; [exact Hs|].
      destruct Hf as [Hf | Hf]; [now left | right; now left]. }
    clear HS.
    repeat (simpl; unfold exec, raise, abort; simpl; try next_failure).
    all: simpl; unfold exec, raise, abort; simpl.
    all: try (intros Hrun; injection Hrun as <- <- <-; simpl;
              split; [reflexivity|]; split; [reflexivity|]; split; [reflexivity|];
              exists 0%nat; simpl; split; [lia|]; split; [reflexivity|];
              split; [reflexivity|]; split; [lia|]; right; left; reflexivity).
    all: destruct (run _ _) as [[r0 p0] tr0] eqn:E0;
      apply Hseed in E0 as (-> & Hq0 & HR & k & Hk & Hz & HM & Hs & Hf);
      intros Hrun; injection Hrun as <- <- <-;
      (split; [reflexivity|]; split; [exact Hq0|]; split; [exact HR|]);
      exists k; (split; [exact Hk|]; split; [exact Hz|]; split; [exact HM|];
                 split; [exact Hs|]);
      destruct Hf as [Hf | [Hf | Hf]]; [now left | right; left | congruence];
      simpl; rewrite Hf; reflexivity.
  - revert E. unfold quiescent in Hq.
    destruct p as [[M0 R] sn s1 s2 f]. simpl in Hq, EM. subst sn M0.
    unfold initializeDatabase. remember seedInitialData as S eqn:HS. clear HS.
    cbn [store messages reflections messages_id_seq].
    repeat (simpl; unfold exec, raise, abort; simpl; try next_failure).
    all: simpl; unfold exec, raise, abort; simpl.
    all: intros Hrun; injection Hrun as <- <- <-; simpl;
      (split; [reflexivity|]; split; [reflexivity|]; split; [reflexivity|]);
      exists 0%nat; simpl; rewrite app_nil_r;
      (split; [lia|]; split; [reflexivity|]; split; [reflexivity|];
       split; [lia|]); right; right; discriminate.
Qed.

(* ================================================================= *)
(** ** Submission, case by case *)

Lemma post_share_full (b : body) (p p' : pool) r tr :
  quiescent p ->
  run (post_share b) p = (r, p', tr) ->
  quiescent p' /\ reflections (store p') = reflections (store p) /\
  ( (messages (store p') = messages (store p) /\
     (r = Uncaught TypeError \/
      r = Returned (Redirect (js "/share?error=empty")) \/
      r = Returned (Redirect (js "/share?error=database"))))
  \/ (exists s a a' c',
        body_message b = JString s /\ trim s <> [] /\
        default (body_author b) (js "Anonymous") = JString a /\
        varchar 100 (or_string (trim a) (js "Anonymous")) = Some a' /\
        match prepareValue (default (body_category b) (js "Honest Message")) with
        | Some c => option_map Some (varchar 50 c)
        | None => Some None
        end = Some c' /\
        messages (store p') = messages (store p) ++
          [{| id := messages_id_seq p; text := trim s; category := c';
              author := a'; reflection_count := 0 |}] /\
        messages_id_seq p' = messages_id_seq p + 1 /\
        r = Returned (Redirect (js "/?success=true")))).
Proof.
  unfold quiescent. destruct p as [[M R] sn s1 s2 f].
  destruct b as [msg cat auth]. simpl. intros ->.
  unfold post_share. simpl.
  destruct msg as [| |s|[] x]; simpl.
  1,2,4,5: intros Hrun; injection Hrun as <- <- <-; simpl;
    split; [reflexivity|]; split; [reflexivity|]; left; split; [reflexivity|]; auto.
  destruct s as [|c s]; simpl.
  { intros Hrun; injection Hrun as <- <- <-; simpl;
    split; [reflexivity|]; split; [reflexivity|]; left; split; [reflexivity|]; auto. }
  destruct (trim (c :: s)) as [|c' t] eqn:Et; simpl.
  { intros Hrun; injection Hrun as <- <- <-; simpl;
    split; [reflexivity|]; split; [reflexivity|]; left; split; [reflexivity|]; auto. }
  destruct auth as [| |a|ta xa]; destruct cat as [| |c0|tc xc];
    repeat (simpl; unfold exec, raise, abort, option_map; simpl;
            first [next_failure | split_data]).
  all: simpl; unfold exec, raise, abort; simpl.
  all: intros Hrun; injection Hrun as <- <- <-; simpl.
  all: (split; [reflexivity|]; split; [reflexivity|]).
  all: try (left; split; [reflexivity|]; auto; fail).
  all: right; eexists; eexists; eexists; eexists;
    (split; [reflexivity|]; split; [rewrite Et; discriminate|];
     split; [reflexivity|]; rewrite Et).
  all: (split; [|split; [|split; [reflexivity | split; reflexivity]]]).
  all: first [ reflexivity | eassumption
             | match goal with
               | H : varchar _ _ = _ |- _ => simpl; rewrite H; reflexivity
               end ].
Qed.

Lemma trimStart_decomp (s : jsstring) :
  exists l, s = l ++ trimStart s /\ forallb is_white_space l = true.
Proof.
  induction s as [|c s (l & Hs & Hl)]; simpl.
  - now exists [].
  - destruct (is_white_space c) eqn:E.
    + exists (c :: l). simpl. rewrite E, Hl. split; [now f_equal | reflexivity].
    + now exists [].
Qed.

Lemma forallb_rev {A} (f : A -> bool) (l : list A) :
  forallb f (rev l) = forallb f l.
Proof.
  destruct (forallb f l) eqn:E.
  - rewrite forallb_forall in *. intros x Hx. apply E.
    exact (proj2 (in_rev l x) Hx).
  - destruct (forallb f (rev l)) eqn:E'; [|reflexivity].
    rewrite forallb_forall in E'.
    assert (forallb f l = true)
      by (apply forallb_forall; intros x Hx; apply E';
          exact (proj1 (in_rev l x) Hx)).
    congruence.
Qed.

Lemma trimEnd_decomp (s : jsstring) :
  exists r, s = trimEnd s ++ r /\ forallb is_white_space r = true.
Proof.
  unfold trimEnd. destruct (trimStart_decomp (rev s)) as (l & Hs & Hl).
  exists (rev l). split.
  - rewrite <- rev_app_distr, <- Hs. now rewrite rev_involutive.
  - now rewrite forallb_rev.
Qed.

(** [trim] cuts white space off both ends and nothing else. *)
Lemma trim_decomp (s : jsstring) :
  exists l r, s = l ++ trim s ++ r /\
              forallb is_white_space l = true /\
              forallb is_white_space r = true.
Proof.
  unfold trim. destruct (trimStart_decomp s) as (l & Hs & Hl).
  destruct (trimEnd_decomp (trimStart s)) as (r & Hr & Hwr).
  exists l, r. repeat split; auto. now rewrite <- Hr.
Qed.

Lemma trimEnd_last (s t : jsstring) (c : N) :
  trimEnd s = t ++ [c] -> is_white_space c = false.
Proof.
  unfold trimEnd. intros H. apply (f_equal (@rev N)) in H.
  rewrite rev_involutive, rev_app_distr in H. simpl in H.
  pose proof (trimStart_head (rev s)) as Hh. now rewrite H in Hh.
Qed.

Lemma trim_first (s t : jsstring) (c : N) :
  trim s = c :: t -> is_white_space c = false.
Proof.
  unfold trim. intros H.
  destruct (trimEnd_decomp (trimStart s)) as (r & Hr & _).
  rewrite H in Hr. pose proof (trimStart_head s) as Hh.
  rewrite Hr in Hh. exact Hh.
Qed.

Lemma trim_last (s t : jsstring) (c : N) :
  trim s = t ++ [c] -> is_white_space c = false.
Proof. unfold trim. apply trimEnd_last. Qed.

(** Trimming what is trimmed changes nothing. *)
Lemma trimStart_fixed (s : jsstring) :
  match s with [] => True | c :: _ => is_white_space c = false end ->
  trimStart s = s.
Proof. destruct s as [|c s]; simpl; [reflexivity|]. now intros ->. Qed.

Lemma trim_trim (s : jsstring) : trim (trim s) = trim s.
Proof.
  assert (H1 : trimStart (trim s) = trim s).
  { apply trimStart_fixed. destruct (trim s) as [|c t] eqn:E; [exact I|].
    now apply trim_first in E. }
  unfold trim at 1. rewrite H1. unfold trimEnd.
  assert (H2 : trimStart (rev (trim s)) = rev (trim s)).
  { apply trimStart_fixed. destruct (rev (trim s)) as [|c t] eqn:E; [exact I|].
    apply (f_equal (@rev N)) in E. rewrite rev_involutive in E. simpl in E.
    now apply trim_last in E. }
  rewrite H2. apply rev_involutive.
Qed.

Lemma stored_row (b : body) (p p' : pool) r tr row :
  quiescent p ->
  run (post_share b) p = (r, p', tr) ->
  messages (store p') = messages (store p) ++ [row] ->
  exists s a a' c',
    body_message b = JString s /\ trim s <> [] /\
    default (body_author b) (js "Anonymous") = JString a /\
    varchar 100 (or_string (trim a) (js "Anonymous")) = Some a' /\
    match prepareValue (default (body_category b) (js "Honest Message")) with
    | Some c => option_map Some (varchar 50 c)
    | None => Some None
    end = Some c' /\
    row = {| id := messages_id_seq p; text := trim s; category := c';
             author := a'; reflection_count := 0 |}.
Proof.
  intros Hq E HM. apply post_share_full in E as (_ & _ & H); [|exact Hq].
  destruct H as [[H _] | (s & a & a' & c' & H1 & H2 & H3 & H4 & H5 & H6 & _)].
  - rewrite H in HM. symmetry in HM. now apply app_one_neq in HM.
  - rewrite HM in H6. apply app_inv_head in H6. injection H6 as ->.
    exists s, a, a', c'. now repeat split.
Qed.

(* ================================================================= *)
(** ** Submission: what is stored *)

(** The author of a stored row: the field is absent or a string; a string
    that is blank gives 'Anonymous', and one that is not gives itself
    trimmed (when that fits the column).  The category is stored as sent,
    neither trimmed nor replaced when empty, and a [null] category is
    stored as NULL. *)
Theorem share_author_and_category (b : body) (p p' : pool)
  (r : outcome response) (tr : list event) (row : message_row) :
  quiescent p ->
  run (post_share b) p = (r, p', tr) ->
  messages (store p') = messages (store p) ++ [row] ->
  (body_author b = JUndefined \/ exists a, body_author b = JString a) /\
  (forall a, body_author b = JString a ->
     (trim a = [] -> author row = js "Anonymous") /\
     (trim a <> [] -> (List.length (trim a) <= 100)%nat ->
      author row = trim a)) /\
  (forall c, body_category b = JString c -> (List.length c <= 50)%nat ->
     category row = Some c) /\
  (body_category b = JNull -> category row = None).
Proof.
  intros Hq E HM.
  destruct (stored_row b p p' r tr row Hq E HM)
    as (s & a & a' & c' & _ & _ & Ha & Ha' & Hc' & ->).
  cbn [author category]. repeat split.
  - destruct (body_author b); simpl in Ha; try discriminate; eauto.
  - intros Ht. rewrite H in Ha. simpl in Ha. injection Ha as <-.
    rewrite Ht in Ha'. simpl in Ha'. vm_compute in Ha'. now injection Ha' as <-.
  - intros Ht Hl. rewrite H in Ha. simpl in Ha. injection Ha as <-.
    destruct (trim a0) eqn:Et; [congruence|]. simpl in Ha'.
    rewrite varchar_fits in Ha' by exact Hl. now injection Ha' as <-.
  - intros c Hc Hl. rewrite Hc in Hc'. simpl in Hc'.
    rewrite varchar_fits in Hc' by exact Hl. simpl in Hc'. now injection Hc' as <-.
  - intros Hc. rewrite Hc in Hc'. simpl in Hc'. now injection Hc' as <-.
Qed.

Lemma share_author_and_category_witness :
  exists row,
    messages (store (handle (Share blank_author) empty_pool)) = [row] /\
    author row = js "Anonymous" /\ category row = Some [].
Proof.
  unfold handle.
  destruct (run (post_share blank_author) empty_pool) as [[r p'] tr] eqn:E.
  cbn [fst snd].
  assert (HM : messages (store p') = messages (store empty_pool) ++
                 [{| id := 1; text := js "hi"; category := Some [];
                     author := js "Anonymous"; reflection_count := 0 |}]).
  { vm_compute in E. injection E as _ <- _. reflexivity. }
  eexists. split; [exact HM|].
  destruct (share_author_and_category blank_author empty_pool p' r tr _
              eq_refl E HM) as (_ & Ha & Hc & _).
  split.
  - apply (Ha (js "   ")); reflexivity.
  - apply (Hc []); [reflexivity | simpl; lia].
Defined.

(** The stored text is the submitted message without the white space at
    its two ends: it neither starts nor ends with white space, and what
    was cut is white space only. *)
Theorem share_text_trimmed (b : body) (p p' : pool)
  (r : outcome response) (tr : list event) (row : message_row) :
  quiescent p ->
  run (post_share b) p = (r, p', tr) ->
  messages (store p') = messages (store p) ++ [row] ->
  (exists s l e,
     body_message b = JString s /\ s = l ++ text row ++ e /\
     forallb is_white_space l = true /\ forallb is_white_space e = true) /\
  (forall c t, text row = c :: t -> is_white_space c = false) /\
  (forall t c, text row = t ++ [c] -> is_white_space c = false) /\
  trim (text row) = text row.
Proof.
  intros Hq E HM.
  destruct (stored_row b p p' r tr row Hq E HM)
    as (s & a & a' & c' & Hs & _ & _ & _ & _ & ->).
  cbn [text]. repeat split.
  - destruct (trim_decomp s) as (l & e & H & Hl & He). now exists s, l, e.
  - intros c t. apply trim_first.
  - intros t c. apply trim_last.
  - apply trim_trim.
Qed.

Lemma share_text_trimmed_witness :
  exists row,
    messages (store (handle (Share hello) empty_pool)) = [row] /\
    trim (text row) = text row /\
    exists s l e, body_message hello = JString s /\ s = l ++ text row ++ e /\
                  forallb is_white_space l = true /\
                  forallb is_white_space e = true.
Proof.
  unfold handle.
  destruct (run (post_share hello) empty_pool) as [[r p'] tr] eqn:E.
  cbn [fst snd].
  assert (HM : messages (store p') = messages (store empty_pool) ++
                 [{| id := 1; text := js "hello";
                     category := Some (js "Honest Message");
                     author := js "Anonymous"; reflection_count := 0 |}]).
  { vm_compute in E. injection E as _ <- _. reflexivity. }
  eexists. split; [exact HM|].
  destruct (share_text_trimmed hello empty_pool p' r tr _ eq_refl E HM)
    as (H1 & _ & _ & H4).
  split; [exact H4 | exact H1].
Defined.

(* ================================================================= *)
(** ** Submission: responses *)

(** The redirect to the home page with [success=true] is sent exactly when
    a row was stored.  A [message] that is truthy and not a string makes
    the handler throw before its try block: no response is sent and no
    statement.  With a message that is not blank, an [author] that is
    [null] or any other value that is not a string gives the redirect to
    the database error without a statement being sent. *)
Theorem share_responses (b : body) (p : pool) :
  quiescent p ->
  (forall r p' tr,
     run (post_share b) p = (r, p', tr) ->
     (r = Returned (Redirect (js "/?success=true")) <->
      messages (store p') <> messages (store p)) /\
     reflections (store p') = reflections (store p) /\ quiescent p') /\
  (forall x, body_message b = JOther true x ->
     run (post_share b) p = (Uncaught TypeError, p, [])) /\
  (forall s, body_message b = JString s -> trim s <> [] ->
     (body_author b = JNull \/ exists t x, body_author b = JOther t x) ->
     run (post_share b) p
     = (Returned (Redirect (js "/share?error=database")), p, [])).
Proof.
  intros Hq. split; [|split].
  - intros r p' tr E. apply post_share_full in E as (Hq' & HR & H); [|exact Hq].
    split; [|split; assumption].
    destruct H as [[HM H] | (s & a & a' & c' & _ & _ & _ & _ & _ & HM & _ & ->)].
    + split; [|congruence]. intros ->.
      destruct H as [H | [H | H]]; discriminate.
    + split; [|reflexivity]. intros _. rewrite HM. apply app_one_neq.
  - intros x H. unfold post_share. rewrite H. reflexivity.
  - intros s H Ht Ha. unfold post_share. rewrite H. simpl.
    destruct s as [|c s]; [now simpl in Ht|]. simpl.
    destruct (trim (c :: s)) as [|c' t] eqn:Et; [congruence|]. simpl.
    destruct Ha as [-> | (t0 & x & ->)]; reflexivity.
Qed.

Lemma share_responses_witness :
  run (post_share number_message) empty_pool
  = (Uncaught TypeError, empty_pool, []) /\
  run (post_share null_author) empty_pool
  = (Returned (Redirect (js "/share?error=database")), empty_pool, []).
Proof.
  destruct (share_responses number_message empty_pool eq_refl) as (_ & H & _).
  destruct (share_responses null_author empty_pool eq_refl) as (_ & _ & H').
  split.
  - apply (H (js "5")). reflexivity.
  - apply (H' (js "hi")); [reflexivity | discriminate | left; reflexivity].
Defined.

(** A submission changes no row of either table: at most it adds one
    message, whose id no message had, whose counter is 0 and which has no
    ledger row. *)
Theorem share_adds_one_row (b : body) (p p' : pool)
  (r : outcome response) (tr : list event) :
  consistent p -> quiescent p ->
  run (post_share b) p = (r, p', tr) ->
  reflections (store p') = reflections (store p) /\
  (messages (store p') = messages (store p) \/
   exists row,
     messages (store p') = messages (store p) ++ [row] /\
     ~ In (id row) (map id (messages (store p))) /\
     reflection_count row = 0 /\
     ledger_count (store p') (id row) = 0%nat).
Proof.
  intros [Hc _] Hq E. apply post_share_full in E as (_ & HR & H); [|exact Hq].
  split; [exact HR|].
  destruct H as [[HM _] | (s & a & a' & c' & _ & _ & _ & _ & _ & HM & _ & _)];
    [now left|].
  right. eexists. split; [exact HM|]. cbn [id reflection_count].
  split; [|split; [reflexivity|]].
  - intros Hin. apply in_map_iff in Hin as (x & Hx & Hin).
    destruct Hc as (_ & _ & Hi). specialize (Hi x Hin). lia.
  - unfold ledger_count. rewrite HR.
    apply (ledger_count_fresh (messages_id_seq p) (store p)); [exact Hc | lia].
Qed.

Lemma share_adds_one_row_witness :
  reflections (store (handle (Share hello) seeded_pool))
  = reflections (store seeded_pool) /\
  (messages (store (handle (Share hello) seeded_pool))
   = messages (store seeded_pool) \/
   exists row,
     messages (store (handle (Share hello) seeded_pool))
     = messages (store seeded_pool) ++ [row] /\
     ~ In (id row) (map id (messages (store seeded_pool))) /\
     reflection_count row = 0 /\
     ledger_count (store (handle (Share hello) seeded_pool)) (id row) = 0%nat).
Proof.
  unfold handle.
  destruct (run (post_share hello) seeded_pool) as [[r p'] tr] eqn:E.
  cbn [fst snd].
  apply (share_adds_one_row hello seeded_pool p' r tr).
  - apply run_consistent, consistent_empty_pool.
  - reflexivity.
  - exact E.
Defined.

(* ================================================================= *)
(** ** Start-up: seeding *)

(** [initializeDatabase] never throws and never touches the ledger.  It
    stores nothing in a table that has a row; in an empty table it stores
    the rows of the first [k] seed messages, in their order and with the
    next [k] ids, where [k] is 5 unless a statement failed. *)
Theorem startup_seeds_a_prefix (p p' : pool) (r : outcome unit)
  (tr : list event) :
  quiescent p ->
  run initializeDatabase p = (r, p', tr) ->
  r = Returned tt /\ quiescent p' /\
  reflections (store p') = reflections (store p) /\
  exists k,
    (k <= 5)%nat /\
    messages (store p') =
      messages (store p) ++
      seed_rows (messages_id_seq p) (firstn k initialMessages) /\
    (messages (store p) <> [] -> k = 0%nat) /\
    (messages (store p) = [] -> existsb failed tr = false -> k = 5%nat).
Proof.
  intros Hq E.
  apply initialize_cases in E as (Hr & Hq' & HR & k & Hk & Hz & HM & _ & Hf);
    [|exact Hq].
  repeat split; auto. exists k. repeat split; auto.
  intros He Hn. destruct Hf as [Hf | [Hf | Hf]]; congruence.
Qed.

Lemma startup_seeds_a_prefix_witness :
  exists k,
    (k <= 5)%nat /\
    messages (store (handle Initialize
                       (set_failures empty_pool
                          [false; false; false; false; false; true])))
    = seed_rows 1 (firstn k initialMessages).
Proof.
  unfold handle.
  destruct (run initializeDatabase
              (set_failures empty_pool
                 [false; false; false; false; false; true]))
    as [[r p'] tr] eqn:E.
  cbn [fst snd].
  assert (Hq : quiescent (set_failures empty_pool
                            [false; false; false; false; false; true]))
    by reflexivity.
  destruct (startup_seeds_a_prefix _ p' r tr Hq E)
    as (_ & _ & _ & k & Hk & HM & _ & _).
  exists k. split; [exact Hk | exact HM].
Defined.

(** Seeding is attempted on an empty table only: once the table has a row,
    be it from a seeding that a failure interrupted, a later
    [initializeDatabase] changes neither table, so an interrupted seeding
    is never completed. *)
Theorem startup_does_not_reseed (p : pool) (f1 f2 : list bool) :
  quiescent p ->
  messages (store (handle Initialize (set_failures p f1))) <> [] ->
  store (handle Initialize
           (set_failures (handle Initialize (set_failures p f1)) f2))
  = store (handle Initialize (set_failures p f1)).
Proof.
  intros Hq Hne. unfold handle in *.
  destruct (run initializeDatabase (set_failures p f1))
    as [[r1 p1] tr1] eqn:E1. cbn [fst snd] in *.
  apply initialize_cases in E1 as (_ & Hq1 & _); [|exact Hq].
  destruct (run initializeDatabase (set_failures p1 f2))
    as [[r2 p2] tr2] eqn:E2. cbn [fst snd].
  apply initialize_cases in E2 as (_ & _ & HR & k & _ & Hz & HM & _);
    [|exact Hq1].
  cbn [set_failures store] in *. rewrite (Hz Hne) in HM. simpl in HM.
  rewrite app_nil_r in HM.
  destruct (store p2), (store p1). simpl in *. congruence.
Qed.

Lemma startup_does_not_reseed_witness :
  List.length
    (messages (store (handle Initialize
       (set_failures
          (handle Initialize
             (set_failures empty_pool [false; false; false; false; true]))
          [])))) = 1%nat.
Proof.
  assert (Hq : quiescent empty_pool) by reflexivity.
  rewrite (startup_does_not_reseed empty_pool
             [false; false; false; false; true] [] Hq).
  - reflexivity.
  - vm_compute. discriminate.
Defined.

(* ================================================================= *)
(** ** Registration: what the handler always does *)

(** The handler always answers: whatever fails, it returns one of its
    three responses and never throws, it leaves no transaction block open,
    and it never touches the sequence of message ids. *)
Theorem reflect_always_answers (m : Z) (u : jsstring) (p p' : pool)
  (r : outcome response) (tr : list event) :
  quiescent p ->
  run (reflect m u) p = (r, p', tr) ->
  (r = Returned already_reflected \/ r = Returned database_error \/
   exists n, r = Returned (reflected n)) /\
  (exists s, status_of r = Some s /\ s <> NotFound) /\
  quiescent p' /\ messages_id_seq p' = messages_id_seq p.
Proof.
  intros Hq E. apply reflect_cases in E as (Hq' & Hs & H); [|exact Hq].
  assert (Hr : r = Returned already_reflected \/ r = Returned database_error \/
               exists n, r = Returned (reflected n)).
  { destruct H as [(-> & _) | [(-> & _) |
      (u' & _ & _ & _ & _ & _ & _ & [(-> & _) | (-> & _)])]]; eauto. }
  split; [exact Hr|]. split; [|split; assumption].
  destruct Hr as [-> | [-> | (n & ->)]]; eexists; (split; [reflexivity|]);
    discriminate.
Qed.

Lemma reflect_always_answers_witness :
  (exists s,
     status_of (fst (fst (run (reflect 1 voter5)
                            (set_failures seeded_pool [false; true; true]))))
     = Some s /\ s <> NotFound) /\
  quiescent (snd (fst (run (reflect 1 voter5)
                         (set_failures seeded_pool [false; true; true])))).
Proof.
  destruct (run (reflect 1 voter5)
              (set_failures seeded_pool [false; true; true]))
    as [[r p'] tr] eqn:E.
  assert (Hq : quiescent (set_failures seeded_pool [false; true; true]))
    by reflexivity.
  destruct (reflect_always_answers 1 voter5 _ p' r tr Hq E)
    as (_ & Hs & Hq' & _).
  split; assumption.
Defined.

(** On tables that satisfy the counter invariant, the count that a
    successful registration returns is the number of ledger rows of the
    message after the call, one more than before. *)
Theorem registered_count_is_ledger_count (m : Z) (u : jsstring)
  (p p' : pool) (n : Z) (tr : list event) :
  quiescent p ->
  counter_invariant (store p) = true ->
  run (reflect m u) p = (Returned (reflected n), p', tr) ->
  n = Z.of_nat (ledger_count (store p') m) /\
  ledger_count (store p') m = S (ledger_count (store p) m).
Proof.
  intros Hq Hinv E. apply reflect_cases in E as (_ & _ & H); [|exact Hq].
  destruct H as [(H & _) | [(H & _) |
    (u' & _ & _ & _ & Hm & -> & _ & [(H & _) | (H & _)])]];
    try discriminate.
  rewrite existsb_find in Hm.
  destruct (find (has_id m) (messages (store p))) as [row|] eqn:Hfind;
    [|discriminate].
  rewrite (select_count_after_increment m _ row Hfind) in H.
  injection H as ->.
  destruct (store p) as [M R] eqn:Ep. cbn [messages reflections] in *.
  rewrite (ledger_count_insert M). cbn [message_id]. rewrite Z.eqb_refl.
  rewrite counter_invariant_spec in Hinv.
  pose proof (find_some _ _ Hfind) as [Hin Hid].
  unfold has_id in Hid. apply Z.eqb_eq in Hid.
  specialize (Hinv row Hin). cbn [messages] in Hinv. rewrite Hid in Hinv.
  split; lia.
Qed.

Lemma registered_count_is_ledger_count_witness :
  1 = Z.of_nat (ledger_count
                  (store (snd (fst (run (reflect 1 voter5) one_message_pool))))
                  1).
Proof.
  destruct (run (reflect 1 voter5) one_message_pool) as [[r p'] tr] eqn:E.
  assert (Hr : r = Returned (reflected 1)).
  { vm_compute in E. injection E as <- _ _. reflexivity. }
  rewrite Hr in E.
  assert (Hq : quiescent one_message_pool) by reflexivity.
  assert (Hinv : counter_invariant (store one_message_pool) = true)
    by reflexivity.
  destruct (registered_count_is_ledger_count 1 voter5 _ p' 1 tr Hq Hinv E)
    as [H _].
  exact H.
Defined.

(* ================================================================= *)
(** ** Nothing is taken back *)

Lemma kept_here (r : message_row) (t : tables) : In r (messages t) -> kept r t.
Proof. intros H. exists r. repeat split; auto. lia. Qed.

Lemma kept_trans (r : message_row) (t t' : tables) :
  kept r t -> (forall x, In x (messages t) -> kept x t') -> kept r t'.
Proof.
  intros (x & Hin & H1 & H2 & H3 & H4 & H5) H.
  destruct (H x Hin) as (y & Hy & G1 & G2 & G3 & G4 & G5).
  exists y. repeat split; try congruence. lia.
Qed.

Lemma handle_quiescent (o : operation) (p : pool) :
  quiescent p -> quiescent (handle o p).
Proof.
  intros Hq. destruct o as [|b|m req]; unfold handle.
  - destruct (run initializeDatabase p) as [[r p'] tr] eqn:E.
    now apply initialize_cases in E as (_ & H & _).
  - destruct (run (post_share b) p) as [[r p'] tr] eqn:E.
    now apply post_share_full in E as (H & _).
  - destruct (run (post_reflect m req) p) as [[r p'] tr] eqn:E.
    unfold post_reflect in E. now apply reflect_cases in E as (H & _).
Qed.

(** One request removes no row and lowers no counter. *)
Lemma handle_grows (o : operation) (p : pool) :
  quiescent p ->
  (forall x, In x (reflections (store p)) ->
             In x (reflections (store (handle o p)))) /\
  (forall r, In r (messages (store p)) -> kept r (store (handle o p))).
Proof.
  intros Hq. destruct o as [|b|m req]; unfold handle.
  - destruct (run initializeDatabase p) as [[r p'] tr] eqn:E. cbn [fst snd].
    apply initialize_cases in E as (_ & _ & HR & k & _ & _ & HM & _);
      [|exact Hq].
    split.
    + intros x Hx. now rewrite HR.
    + intros x Hx. apply kept_here. rewrite HM. apply in_or_app. now left.
  - destruct (run (post_share b) p) as [[r p'] tr] eqn:E. cbn [fst snd].
    apply post_share_full in E as (_ & HR & H); [|exact Hq]. split.
    + intros x Hx. now rewrite HR.
    + intros x Hx. apply kept_here.
      destruct H as [[-> _] | (s & a & a' & c' & _ & _ & _ & _ & _ & -> & _)];
        [exact Hx|]. apply in_or_app. now left.
  - destruct (run (post_reflect m req) p) as [[r p'] tr] eqn:E. cbn [fst snd].
    unfold post_reflect in E. apply reflect_cases in E as (_ & _ & H);
      [|exact Hq].
    destruct H as [(_ & -> & _) | [(_ & -> & _) |
      (u' & _ & _ & _ & _ & -> & _)]];
      try (split; [auto | intros x Hx; now apply kept_here]).
    cbn [messages reflections]. split.
    + intros x Hx. apply in_or_app. now left.
    + intros x Hx. exists (increment m x). split; [now apply in_map|].
      unfold increment. destruct (has_id m x); simpl; repeat split; lia.
Qed.

(** In no run of the server, whatever the requests and the failures, is a
    ledger row removed or changed, a message removed, its text, category
    or author changed, or its counter lowered. *)
Theorem nothing_is_taken_back (l : list (operation * list bool)) (p : pool) :
  quiescent p ->
  (forall x, In x (reflections (store p)) ->
             In x (reflections (store (serve l p)))) /\
  (forall r, In r (messages (store p)) -> kept r (store (serve l p))).
Proof.
  revert p. induction l as [|[o f] l IH]; intros p Hq; simpl.
  - split; [auto | intros r Hr; now apply kept_here].
  - assert (Hq0 : quiescent (set_failures p f)) by exact Hq.
    destruct (handle_grows o _ Hq0) as [H1 H2].
    destruct (IH _ (handle_quiescent o _ Hq0)) as [G1 G2].
    split.
    + intros x Hx. apply G1, H1. exact Hx.
    + intros r Hr. apply (kept_trans r (store (handle o (set_failures p f)))).
      * apply H2. exact Hr.
      * exact G2.
Qed.

Lemma nothing_is_taken_back_witness :
  In {| r_id := 1; message_id := 1; user_ip := voter5 |}
     (reflections (store
        (serve [ (Reflect 1 direct_request, []);
                 (Reflect 99 direct_request, [false; true]);
                 (Share hello, [true]); (Initialize, []) ]
               (handle (Reflect 1 direct_request) seeded_pool)))).
Proof.
  apply nothing_is_taken_back.
  - reflexivity.
  - left. reflexivity.
Defined.

(* ================================================================= *)
(** ** Message ids *)

Lemma seed_rows_ids (l : list seed) (i x : Z) :
  In x (map id (seed_rows i l)) -> i <= x.
Proof.
  revert i. induction l as [|s l IH]; intros i; simpl; [tauto|].
  intros [<- | H]; [lia|]. apply IH in H. lia.
Qed.

Lemma seed_rows_NoDup (l : list seed) (i : Z) :
  NoDup (map id (seed_rows i l)).
Proof.
  revert i. induction l as [|s l IH]; intros i; simpl; constructor.
  - intros H. apply seed_rows_ids in H. lia.
  - apply IH.
Qed.

Lemma map_id_increment (m : Z) (M : list message_row) :
  map id (map (increment m) M) = map id M.
Proof.
  induction M as [|r M IH]; simpl; [reflexivity|].
  now rewrite id_increment, IH.
Qed.

(** id SERIAL PRIMARY KEY: one request keeps the ids distinct. *)
Lemma handle_unique_ids (o : operation) (p : pool) :
  consistent p -> quiescent p -> unique_ids (store p) ->
  unique_ids (store (handle o p)).
Proof.
  intros [(_ & _ & Hi) _] Hq Hu. unfold unique_ids in *.
  destruct o as [|b|m req]; unfold handle.
  - destruct (run initializeDatabase p) as [[r p'] tr] eqn:E. cbn [fst snd].
    apply initialize_cases in E as (_ & _ & _ & k & _ & _ & -> & _);
      [|exact Hq].
    rewrite map_app. apply NoDup_app; [exact Hu | apply seed_rows_NoDup|].
    intros a Ha Hb. apply seed_rows_ids in Hb.
    apply in_map_iff in Ha as (x & <- & Hx). specialize (Hi x Hx). lia.
  - destruct (run (post_share b) p) as [[r p'] tr] eqn:E. cbn [fst snd].
    apply post_share_full in E as (_ & _ & H); [|exact Hq].
    destruct H as [[-> _] | (s & a & a' & c' & _ & _ & _ & _ & _ & -> & _)];
      [exact Hu|].
    rewrite map_app. apply NoDup_app; [exact Hu | |].
    + simpl. constructor; [tauto | constructor].
    + intros x Ha [<- | []].
      apply in_map_iff in Ha as (y & Hy & Hin). specialize (Hi y Hin).
      cbn [id] in Hy. lia.
  - destruct (run (post_reflect m req) p) as [[r p'] tr] eqn:E. cbn [fst snd].
    unfold post_reflect in E. apply reflect_cases in E as (_ & _ & H);
      [|exact Hq].
    destruct H as [(_ & -> & _) | [(_ & -> & _) |
      (u' & _ & _ & _ & _ & -> & _)]]; try exact Hu.
    cbn [messages]. now rewrite map_id_increment.
Qed.

(* ================================================================= *)
(** ** The total of the home page *)

Lemma total_reflections_sum (t : tables) :
  total_reflections t = sum_of (messages t).
Proof.
  unfold total_reflections, sum_counts, sum_of.
  now destruct (messages t).
Qed.

Lemma sum_of_app (A B : list message_row) :
  sum_of (A ++ B) = sum_of A + sum_of B.
Proof.
  unfold sum_of. induction A as [|r A IH]; simpl; [reflexivity|].
  rewrite IH. lia.
Qed.

Lemma increment_other (m : Z) (M : list message_row) :
  ~ In m (map id M) -> map (increment m) M = M.
Proof.
  induction M as [|r M IH]; simpl; [reflexivity|]. intros H.
  rewrite IH by tauto. unfold increment, has_id.
  destruct (Z.eqb (id r) m) eqn:E; [|reflexivity].
  apply Z.eqb_eq in E. tauto.
Qed.

(** Under the primary key the UPDATE adds one to the sum. *)
Lemma sum_of_increment (m : Z) (M : list message_row) :
  NoDup (map id M) -> existsb (has_id m) M = true ->
  sum_of (map (increment m) M) = sum_of M + 1.
Proof.
  induction M as [|r M IH]; simpl; [discriminate|].
  intros Hn Hex. apply NoDup_cons_iff in Hn as [Hr Hn].
  unfold sum_of in *. simpl.
  destruct (has_id m r) eqn:E.
  - unfold has_id in E. apply Z.eqb_eq in E. rewrite E in Hr.
    rewrite (increment_other m M Hr). unfold increment, has_id.
    rewrite E, Z.eqb_refl. simpl. lia.
  - simpl in Hex. rewrite (IH Hn Hex). unfold increment. rewrite E. lia.
Qed.

Lemma handle_total (o : operation) (p : pool) :
  consistent p -> quiescent p -> unique_ids (store p) ->
  (o = Initialize -> messages (store p) <> []) ->
  total_reflections (store (handle o p)) - ledger_size (store (handle o p))
  = total_reflections (store p) - ledger_size (store p).
Proof.
  intros Hc Hq Hu Hseed. rewrite !total_reflections_sum. unfold ledger_size.
  destruct o as [|b|m req]; unfold handle.
  - destruct (run initializeDatabase p) as [[r p'] tr] eqn:E. cbn [fst snd].
    apply initialize_nonempty in E as (-> & _); auto.
  - destruct (run (post_share b) p) as [[r p'] tr] eqn:E. cbn [fst snd].
    apply post_share_full in E as (_ & -> & H); [|exact Hq].
    destruct H as [[-> _] | (s & a & a' & c' & _ & _ & _ & _ & _ & -> & _)];
      [reflexivity|].
    rewrite sum_of_app. unfold sum_of at 2. simpl. lia.
  - destruct (run (post_reflect m req) p) as [[r p'] tr] eqn:E. cbn [fst snd].
    unfold post_reflect in E. apply reflect_cases in E as (_ & _ & H);
      [|exact Hq].
    destruct H as [(_ & -> & _) | [(_ & -> & _) |
      (u' & _ & _ & _ & Hm & -> & _)]]; try reflexivity.
    cbn [messages reflections].
    rewrite (sum_of_increment m _ Hu Hm), length_app. simpl. lia.
Qed.

Lemma serve_total (l : list (operation * list bool)) (p : pool) :
  never_seeds l p ->
  consistent p -> quiescent p -> unique_ids (store p) ->
  total_reflections (store (serve l p)) - ledger_size (store (serve l p))
  = total_reflections (store p) - ledger_size (store p) /\
  quiescent (serve l p).
Proof.
  revert p. induction l as [|[o f] l IH]; intros p Hn Hc Hq Hu; simpl.
  - split; [reflexivity | exact Hq].
  - destruct Hn as [Hseed Hn].
    assert (Hc0 : consistent (set_failures p f)) by exact Hc.
    assert (Hq0 : quiescent (set_failures p f)) by exact Hq.
    assert (Hu0 : unique_ids (store (set_failures p f))) by exact Hu.
    destruct (IH _ Hn (handle_consistent o _ Hc0) (handle_quiescent o _ Hq0)
                (handle_unique_ids o _ Hc0 Hq0 Hu0)) as [H1 H2].
    split; [|exact H2]. rewrite H1.
    apply (handle_total o (set_failures p f) Hc0 Hq0 Hu0 Hseed).
Qed.

(** Apart from seeding, the sum of the counters moves with the ledger:
    over any run that does not seed, whatever fails, the sum minus the
    number of ledger rows is what it was, since a submission adds a
    counter of 0 and a registration that commits adds one ledger row and
    one to one counter; the ids stay distinct along the run. *)
Theorem total_follows_ledger (l : list (operation * list bool)) (p : pool) :
  never_seeds l p ->
  consistent p -> quiescent p -> unique_ids (store p) ->
  total_reflections (store (serve l p)) - ledger_size (store (serve l p))
  = total_reflections (store p) - ledger_size (store p) /\
  unique_ids (store (serve l p)).
Proof.
  revert p. induction l as [|[o f] l IH]; intros p Hn Hc Hq Hu; simpl.
  - split; [reflexivity | exact Hu].
  - destruct Hn as [Hseed Hn].
    assert (Hc0 : consistent (set_failures p f)) by exact Hc.
    assert (Hq0 : quiescent (set_failures p f)) by exact Hq.
    assert (Hu0 : unique_ids (store (set_failures p f))) by exact Hu.
    destruct (IH (handle o (set_failures p f)) Hn) as [H1 H2].
    + now apply handle_consistent.
    + now apply handle_quiescent.
    + now apply handle_unique_ids.
    + split; [|exact H2]. rewrite H1.
      apply (handle_total o (set_failures p f) Hc0 Hq0 Hu0 Hseed).
Qed.

Lemma unique_ids_seeded : unique_ids (store seeded_pool).
Proof.
  apply (handle_unique_ids Initialize empty_pool).
  - apply consistent_empty_pool.
  - reflexivity.
  - constructor.
Qed.

Lemma total_follows_ledger_witness :
  total_reflections
    (store (serve [ (Reflect 1 direct_request, []);
                    (Reflect 1 direct_request, []);
                    (Share hello, []);
                    (Reflect 2 anonymous_request, [false; false; true]);
                    (Reflect 6 anonymous_request, []) ] seeded_pool))
  - ledger_size
      (store (serve [ (Reflect 1 direct_request, []);
                      (Reflect 1 direct_request, []);
                      (Share hello, []);
                      (Reflect 2 anonymous_request, [false; false; true]);
                      (Reflect 6 anonymous_request, []) ] seeded_pool))
  = 48.
Proof.
  destruct (total_follows_ledger
              [ (Reflect 1 direct_request, []);
                (Reflect 1 direct_request, []);
                (Share hello, []);
                (Reflect 2 anonymous_request, [false; false; true]);
                (Reflect 6 anonymous_request, []) ] seeded_pool) as [H _].
  - vm_compute. repeat split; discriminate.
  - apply run_consistent, consistent_empty_pool.
  - reflexivity.
  - apply unique_ids_seeded.
  - rewrite H. reflexivity.
Defined.

(** GET /, on a database that was never seeded: when neither of its two
    statements fails, the page lists what the engine answers and its total
    is the number of ledger rows; when either fails, the page has no
    message, the total 0 and the error text.  The route changes no row. *)
Theorem home_total_is_ledger_size (recent : tables -> list message_row)
  (css : bool) (l : list (operation * list bool)) :
  never_seeds l empty_pool ->
  fst (get_home recent css (set_failures (serve l empty_pool) []))
  = {| home_messages := recent (store (serve l empty_pool));
       totalReflections := ledger_size (store (serve l empty_pool));
       cssAvailable := css; home_error := None |} /\
  (forall f, fst (get_home recent css
                    (set_failures (serve l empty_pool) (true :: f)))
             = home_failed) /\
  (forall f, fst (get_home recent css
                    (set_failures (serve l empty_pool) (false :: true :: f)))
             = home_failed) /\
  (forall f, store (snd (get_home recent css
                           (set_failures (serve l empty_pool) f)))
             = store (serve l empty_pool)).
Proof.
  intros Hn.
  destruct (serve_total l empty_pool Hn consistent_empty_pool eq_refl)
    as [Ht Hq]; [constructor|].
  change (total_reflections (store empty_pool) - ledger_size (store empty_pool))
    with 0 in Ht.
  unfold quiescent in Hq.
  destruct (serve l empty_pool) as [t sn s1 s2 f0]. simpl in Hq. subst sn.
  cbn [store] in Ht. unfold get_home, select, set_failures. cbn.
  repeat split.
  - f_equal. unfold total_reflections in Ht. lia.
  - intros [|[] [|[] f]]; reflexivity.
Qed.

Lemma home_total_is_ledger_size_witness :
  totalReflections
    (fst (get_home newest_first true
            (set_failures
               (serve [ (Share hello, []); (Reflect 1 direct_request, []);
                        (Reflect 1 anonymous_request, []);
                        (Reflect 1 direct_request, []) ] empty_pool) [])))
  = 2.
Proof.
  destruct (home_total_is_ledger_size newest_first true
              [ (Share hello, []); (Reflect 1 direct_request, []);
                (Reflect 1 anonymous_request, []);
                (Reflect 1 direct_request, []) ]) as [H _].
  - vm_compute. repeat split; discriminate.
  - rewrite H. reflexivity.
Defined.


(* ================================================================= *)
(** ** The CommonJS handler *)

Lemma cjs_cases (m : Z) (u : jsstring) (p p' : pool) r tr :
  quiescent p ->
  run (reflect_cjs m u) p = (r, p', tr) ->
  quiescent p' /\
  ( (r = Returned cjs_already_reflected /\
     existsb (matches m u) (reflections (store p)) = true /\
     ended_in_failed_rollback tr = false)
  \/ (r = Returned cjs_database_error /\ existsb failed tr = true /\
      ended_in_failed_rollback tr = false)
  \/ ((exists n, r = Returned (cjs_reflected n)) /\
      existsb failed tr = false /\ ended_in_failed_rollback tr = false)
  \/ (r = Uncaught (SqlError engine_failure) /\
      ended_in_failed_rollback tr = true)) /\
  ( store p' = store p
  \/ (exists u',
        varchar 45 u = Some u' /\
        existsb (matches m u) (reflections (store p)) = false /\
        existsb (has_id m) (messages (store p)) = true /\
        store p' =
          {| messages := map (increment m) (messages (store p));
             reflections := reflections (store p) ++
               [{| r_id := reflections_id_seq p; message_id := m;
                   user_ip := u' |}] |} /\
        existsb (fun ev => failed ev && in_transaction (fst ev)) tr = false)).
Proof.
  unfold quiescent. destruct p as [[M R] sn s1 s2 f]. simpl. intros ->.
  unfold reflect_cjs.
  rewrite (existsb_filter (matches m u)).
  repeat (simpl; unfold exec, raise, abort; simpl;
          first [next_failure | split_data]).
  all: simpl; unfold exec, raise, abort; simpl.
  all: intros Hrun; injection Hrun as <- <- <-; simpl.
  all: split; [reflexivity|].
  all: split;
    [first [ left; repeat split; reflexivity
           | right; left; repeat split; reflexivity
           | right; right; left; split; [eexists; reflexivity|];
             split; reflexivity
           | right; right; right; split; reflexivity ]|].
  all: first [ left; reflexivity
             | right; eexists; repeat split; try eassumption; reflexivity ].
Qed.

(** When the engine fails no statement, the CommonJS handler leaves the
    same tables, sequences and connection state as the handler of
    [server.js] and gives the corresponding response: the success body
    with the same count, the 500 body, or, on the already-reflected path,
    the body of [server.js] with [count: null] added. *)
Theorem cjs_agrees_without_failures (m : Z) (u : jsstring) (p : pool) :
  quiescent p -> failures p = [] ->
  snd (fst (run (reflect_cjs m u) p)) = snd (fst (run (reflect m u) p)) /\
  ( (fst (fst (run (reflect_cjs m u) p)) = Returned cjs_already_reflected /\
     fst (fst (run (reflect m u) p)) = Returned already_reflected)
  \/ (exists n,
        fst (fst (run (reflect_cjs m u) p)) = Returned (cjs_reflected n) /\
        fst (fst (run (reflect m u) p)) = Returned (reflected n))
  \/ (fst (fst (run (reflect_cjs m u) p)) = Returned cjs_database_error /\
      fst (fst (run (reflect m u) p)) = Returned database_error)).
Proof.
  unfold quiescent. destruct p as [[M R] sn s1 s2 f]. simpl. intros -> ->.
  unfold reflect_cjs, reflect, reflect_transaction, reflect_catch.
  simpl. unfold exec. simpl. unfold exec. simpl.
  destruct (filter (matches m u) R) eqn:EF;
    repeat (simpl; unfold exec, raise, abort; simpl; try split_data).
  all: split; [reflexivity|].
  all: first [ left; split; reflexivity
             | right; left; eexists; split; reflexivity
             | right; right; split; reflexivity ].
Qed.

Lemma cjs_agrees_without_failures_witness :
  snd (fst (run (reflect_cjs 1 voter5)
              (snd (fst (run (reflect 1 voter5) seeded_pool)))))
  = snd (fst (run (reflect 1 voter5)
                (snd (fst (run (reflect 1 voter5) seeded_pool))))) /\
  fst (fst (run (reflect_cjs 1 voter5)
              (snd (fst (run (reflect 1 voter5) seeded_pool)))))
  = Returned cjs_already_reflected /\
  fst (fst (run (reflect 1 voter5)
              (snd (fst (run (reflect 1 voter5) seeded_pool)))))
  = Returned already_reflected.
Proof.
  assert (Hq : quiescent (snd (fst (run (reflect 1 voter5) seeded_pool))))
    by reflexivity.
  assert (Hf : failures (snd (fst (run (reflect 1 voter5) seeded_pool))) = [])
    by reflexivity.
  destruct (cjs_agrees_without_failures 1 voter5 _ Hq Hf)
    as [Hs [[H1 H2] | [(n & H1 & H2) | [H1 H2]]]].
  - split; [exact Hs | split; assumption].
  - exfalso. vm_compute in H2. discriminate.
  - exfalso. vm_compute in H2. discriminate.
Defined.

(** The CommonJS handler is as atomic as the other: after it, both tables
    are as before or have the one new ledger row and the one increment.
    But it can throw: its catch block awaits the ROLLBACK without a catch.
    It throws, sending no response, exactly when that ROLLBACK fails,
    which is when the last statement of the run is a failed ROLLBACK (a
    ROLLBACK that fails inside the try block is followed by the one of the
    catch block).  So it does when BEGIN and the ROLLBACK after it fail, a
    schedule under which the handler of [server.js] answers 500. *)
Theorem cjs_atomic_but_may_throw (m : Z) (u : jsstring) (p : pool) :
  quiescent p ->
  (forall r p' tr,
     run (reflect_cjs m u) p = (r, p', tr) ->
     quiescent p' /\
     (store p' = store p \/
      exists row,
        message_id row = m /\
        existsb (has_id m) (messages (store p)) = true /\
        reflections (store p') = reflections (store p) ++ [row] /\
        messages (store p') = map (increment m) (messages (store p))) /\
     ((exists e, r = Uncaught e) <-> ended_in_failed_rollback tr = true) /\
     (forall e, r = Uncaught e -> e = SqlError engine_failure)) /\
  (forall f, failures p = true :: true :: f ->
     fst (fst (run (reflect_cjs m u) p)) = Uncaught (SqlError engine_failure) /\
     fst (fst (run (reflect m u) p)) = Returned database_error).
Proof.
  intros Hq. split.
  - intros r p' tr E. apply cjs_cases in E as (Hq' & Hr & Hs); [|exact Hq].
    split; [exact Hq'|]. split; [|split].
    + destruct Hs as [Hs | (u' & _ & _ & Hm & -> & _)]; [now left|].
      right. eexists. repeat split; simpl; auto.
    + destruct Hr as [(-> & _ & Hl) | [(-> & _ & Hl) |
        [((n & ->) & _ & Hl) | (-> & Hl)]]]; rewrite Hl; split;
        try discriminate; try (intros [e He]; discriminate); eauto.
    + intros e ->.
      destruct Hr as [(H & _) | [(H & _) | [((n & H) & _) | (H & _)]]];
        try discriminate. now injection H.
  - intros f Hf. unfold quiescent in Hq.
    destruct p as [t sn s1 s2 f0]. simpl in Hq, Hf. subst sn f0.
    split; reflexivity.
Qed.

Lemma cjs_atomic_but_may_throw_witness :
  fst (fst (run (reflect_cjs 1 voter5) (set_failures seeded_pool [true; true])))
  = Uncaught (SqlError engine_failure) /\
  fst (fst (run (reflect 1 voter5) (set_failures seeded_pool [true; true])))
  = Returned database_error /\
  ((exists e,
      fst (fst (run (reflect_cjs 1 voter5)
                  (set_failures seeded_pool [false; true; false])))
      = Uncaught e) <->
   ended_in_failed_rollback
     (snd (run (reflect_cjs 1 voter5)
             (set_failures seeded_pool [false; true; false]))) = true).
Proof.
  assert (Hq : quiescent (set_failures seeded_pool [true; true]))
    by reflexivity.
  assert (Hq2 : quiescent (set_failures seeded_pool [false; true; false]))
    by reflexivity.
  destruct (cjs_atomic_but_may_throw 1 voter5 _ Hq) as [_ H].
  destruct (cjs_atomic_but_may_throw 1 voter5 _ Hq2) as [H2 _].
  destruct (H [] eq_refl) as [Ha Hb].
  split; [exact Ha | split; [exact Hb|]].
  destruct (run (reflect_cjs 1 voter5)
              (set_failures seeded_pool [false; true; false]))
    as [[r p'] tr] eqn:E.
  destruct (H2 r p' tr eq_refl) as (_ & _ & Hiff & _). exact Hiff.
Defined.

(* ================================================================= *)
(** ** The reflect button *)

Lemma contains_add (c : string) (l : list string) :
  contains c (add_class c l) = true.
Proof.
  unfold add_class. destruct (contains c l) eqn:E; [exact E|].
  unfold contains. rewrite existsb_app. simpl. rewrite String.eqb_refl.
  apply orb_true_r.
Qed.

Lemma contains_remove (c : string) (l : list string) :
  contains c (remove_class c l) = false.
Proof.
  unfold contains, remove_class. induction l as [|x l IH]; simpl; [reflexivity|].
  destruct (String.eqb c x) eqn:E; simpl; [exact IH|]. now rewrite E.
Qed.

Lemma remove_absent (c : string) (l : list string) :
  contains c l = false -> remove_class c l = l.
Proof.
  unfold contains, remove_class. induction l as [|x l IH]; simpl; [reflexivity|].
  intros H. apply orb_false_iff in H as [H1 H2]. rewrite H1. simpl.
  now rewrite IH.
Qed.

Lemma remove_add (c : string) (l : list string) :
  contains c l = false -> remove_class c (add_class c l) = l.
Proof.
  intros H. unfold add_class. rewrite H. unfold remove_class.
  rewrite filter_app. simpl. rewrite String.eqb_refl. simpl.
  rewrite app_nil_r. now apply remove_absent.
Qed.

Lemma remove_class_comm_add (c d : string) (l : list string) :
  String.eqb c d = false ->
  remove_class c (add_class d l) = add_class d (remove_class c l).
Proof.
  intros H. unfold add_class.
  assert (Hc : contains d (remove_class c l) = contains d l).
  { unfold contains, remove_class. induction l as [|x l IH]; simpl; [reflexivity|].
    destruct (String.eqb c x) eqn:E; simpl.
    - rewrite IH. apply String.eqb_eq in E. subst x.
      rewrite String.eqb_sym, H. reflexivity.
    - now rewrite IH. }
  rewrite Hc. destruct (contains d l); [reflexivity|].
  unfold remove_class. rewrite filter_app. simpl. now rewrite H.
Qed.

Lemma click_start_some (pg : page) o pg1 :
  click_start pg = Some (o, pg1) ->
  contains "loading" (classList (btn pg)) = false /\
  o = reflect_text (btn pg) /\
  classList (btn pg1) = add_class "loading" (classList (btn pg)) /\
  reflect_text (btn pg1) =
    (if has_text o then Some (js "Reflecting...") else reflect_text (btn pg)) /\
  reflect_count (btn pg1) = reflect_count (btn pg) /\
  backgroundColor (btn pg1) = backgroundColor (btn pg) /\
  borderColor (btn pg1) = borderColor (btn pg) /\
  flashes pg1 = flashes pg /\ timers pg1 = timers pg.
Proof.
  unfold click_start.
  destruct (contains "loading" (classList (btn pg))) eqn:E; [discriminate|].
  intros [= <- <-]. simpl. now repeat split.
Qed.

(** While its request is out the button sends no second one: a click on a
    loading button changes nothing and reaches no server.  Whatever the
    answer, the handler ends with the button not loading, its opacity
    reset, and clickable again. *)
Theorem one_request_per_button (pg pg1 : page) (o : option jsstring) :
  click_start pg = Some (o, pg1) ->
  click_start pg1 = None /\
  (forall m req p, click m req pg1 p = (pg1, p)) /\
  (forall f,
     contains "loading" (classList (btn (click_end o f pg1))) = false /\
     opacity (btn (click_end o f pg1)) = ""%string /\
     exists next, click_start (click_end o f pg1) = Some next).
Proof.
  intros H. apply click_start_some in H as (_ & _ & Hc & _).
  assert (H1 : click_start pg1 = None).
  { unfold click_start. rewrite Hc, contains_add. reflexivity. }
  split; [exact H1|]. split.
  - intros m req p. unfold click. now rewrite H1.
  - intros f.
    assert (Hl : contains "loading" (classList (btn (click_end o f pg1))) = false).
    { unfold click_end, finally. simpl. apply contains_remove. }
    split; [exact Hl|]. split; [reflexivity|].
    unfold click_start. rewrite Hl. eexists. reflexivity.
Qed.

Lemma one_request_per_button_witness :
  match click_start fresh_button with
  | Some (_, pg1) =>
      click_start pg1 = None /\
      click 1 direct_request pg1 seeded_pool = (pg1, seeded_pool)
  | None => False
  end.
Proof.
  destruct (click_start fresh_button) as [[o pg1]|] eqn:E.
  - destruct (one_request_per_button _ _ _ E) as (H1 & H2 & _).
    split; [exact H1 | apply H2].
  - vm_compute in E. discriminate.
Defined.

(** A storage failure is silent on the page: when the server answers with
    its 500 response, the click shows no message and leaves the button's
    classes, colours and count as they were before the click; all it
    leaves behind is the timeout that restores the label. *)
Theorem storage_failure_is_silent (m : Z) (req : request) (pg pg1 : page)
  (o : option jsstring) (p : pool) :
  click_start pg = Some (o, pg1) ->
  fst (fst (run (post_reflect m req) p)) = Returned database_error ->
  flashes (fst (click m req pg p)) = flashes pg /\
  classList (btn (fst (click m req pg p))) = classList (btn pg) /\
  backgroundColor (btn (fst (click m req pg p))) = backgroundColor (btn pg) /\
  borderColor (btn (fst (click m req pg p))) = borderColor (btn pg) /\
  reflect_count (btn (fst (click m req pg p))) = reflect_count (btn pg) /\
  timers (fst (click m req pg p)) = timers pg ++ [(1000, RestoreText o)].
Proof.
  intros Hs Hr. unfold click, fetch_reflect. rewrite Hs.
  destruct (run (post_reflect m req) p) as [[r p'] tr]. simpl in Hr. subst r.
  apply click_start_some in Hs as (Hl & _ & Hc & _ & Hn & Hb & Hd & Hf & Ht).
  cbn -[contains remove_class add_class]. rewrite Hc, Hf, Hn, Hb, Hd, Ht.
  repeat split.
  now apply remove_add.
Qed.

Lemma storage_failure_is_silent_witness :
  flashes (fst (click 99 direct_request fresh_button seeded_pool)) = [] /\
  classList (btn (fst (click 99 direct_request fresh_button seeded_pool)))
  = ["reflect-btn"%string].
Proof.
  destruct (click_start fresh_button) as [[o pg1]|] eqn:E;
    [|vm_compute in E; discriminate].
  destruct (storage_failure_is_silent 99 direct_request fresh_button pg1 o
              seeded_pool E) as (H1 & H2 & _).
  - reflexivity.
  - split; [exact H1 | exact H2].
Defined.

(** A successful click shows the database's number: when the server
    registers the reflection, the count element shows the count of the
    response, which is the message's [reflection_count] after the call;
    the button gets the class [reflected] and the page the message
    that the reflection was added. *)
Theorem click_shows_count (m : Z) (req : request) (pg pg1 : page)
  (o : option jsstring) (c : count_text) (p p' : pool) (n : Z)
  (tr : list event) :
  quiescent p ->
  click_start pg = Some (o, pg1) ->
  reflect_count (btn pg) = Some c ->
  run (post_reflect m req) p = (Returned (reflected n), p', tr) ->
  snd (click m req pg p) = p' /\
  reflect_count (btn (fst (click m req pg p))) = Some (Assigned (Some n)) /\
  count_of (store p') m = Some n /\
  flashes (fst (click m req pg p)) = flashes pg ++ [ReflectionAdded] /\
  contains "reflected" (classList (btn (fst (click m req pg p)))) = true.
Proof.
  intros Hq Hs Hc E. unfold click, fetch_reflect. rewrite Hs, E.
  apply click_start_some in Hs as (_ & _ & Hcl & _ & Hn & _ & _ & Hf & _).
  cbn -[contains remove_class add_class]. rewrite Hn, Hc, Hf. repeat split.
  - unfold post_reflect in E. apply reflect_cases in E as (_ & _ & H);
      [|exact Hq].
    destruct H as [(H & _) | [(H & _) |
      (u' & _ & _ & _ & Hm & -> & _ & [(H & _) | (H & _)])]];
      try discriminate.
    rewrite existsb_find in Hm.
    destruct (find (has_id m) (messages (store p))) as [row|] eqn:Hfind;
      [|discriminate].
    rewrite (select_count_after_increment m _ row Hfind) in H.
    injection H as ->. destruct (store p) as [M R]. simpl in Hfind.
    now apply (count_of_increment M R).
  - rewrite Hcl, remove_class_comm_add by reflexivity. apply contains_add.
Qed.

Lemma click_shows_count_witness :
  reflect_count (btn (fst (click 1 direct_request fresh_button seeded_pool)))
  = Some (Assigned (Some 8)) /\
  count_of (store (snd (click 1 direct_request fresh_button seeded_pool))) 1
  = Some 8.
Proof.
  destruct (click_start fresh_button) as [[o pg1]|] eqn:Es;
    [|vm_compute in Es; discriminate].
  destruct (run (post_reflect 1 direct_request) seeded_pool)
    as [[r p'] tr] eqn:E.
  assert (Hr : r = Returned (reflected 8)).
  { vm_compute in E. injection E as <- _ _. reflexivity. }
  subst r.
  assert (Hq : quiescent seeded_pool) by reflexivity.
  destruct (click_shows_count 1 direct_request fresh_button pg1 o
              (Rendered (js "7")) seeded_pool p' 8 tr Hq Es eq_refl E)
    as (H1 & H2 & H3 & _).
  rewrite H1. split; [exact H2 | exact H3].
Defined.

Lemma click_end_button (o : option jsstring) (f : fetched) (pg : page) :
  reflect_text (btn (click_end o f pg)) = reflect_text (btn pg) /\
  In (1000, RestoreText o) (timers (click_end o f pg)) /\
  (forall d c, In (d, RestoreText c) (timers (click_end o f pg)) ->
               In (d, RestoreText c) (timers pg) \/ c = o).
Proof.
  unfold click_end, finally, on_data, show, set_timeout, set_button.
  destruct f as [|data]; [|destruct (success data); [|destruct (says_already data)]];
    cbn -[contains remove_class add_class]; repeat split;
    try (apply in_or_app; right; left; reflexivity).
  all: intros d c H; repeat (apply in_app_or in H as [H | [H | []]]);
    try (now left); try (injection H as _ <-; now right); discriminate.
Qed.

Lemma restore_gives_back (pg pg1 : page) (o : option jsstring) (f : fetched) :
  click_start pg = Some (o, pg1) ->
  reflect_text (btn (fire (RestoreText o) (click_end o f pg1)))
  = reflect_text (btn pg).
Proof.
  intros H. apply click_start_some in H as (_ & Ho & _ & Ht & _).
  destruct (click_end_button o f pg1) as (He & _).
  unfold fire. destruct (has_text o) eqn:E.
  - rewrite He, Ht. cbn. now rewrite Ho.
  - rewrite He, Ht. reflexivity.
Qed.

(** The label of the button: while a request is out and until a restore
    timeout runs, a label that is not empty reads 'Reflecting...'; the
    handler always schedules such a timeout, every one it schedules
    carries the label captured at the click, and running it gives the
    button the label it had before the click. *)
Theorem label_is_restored (pg pg1 : page) (o : option jsstring)
  (f : fetched) :
  click_start pg = Some (o, pg1) ->
  (has_text o = true ->
   reflect_text (btn (click_end o f pg1)) = Some (js "Reflecting...")) /\
  In (1000, RestoreText o) (timers (click_end o f pg1)) /\
  (forall d c, In (d, RestoreText c) (timers (click_end o f pg1)) ->
               In (d, RestoreText c) (timers pg) \/ c = o) /\
  reflect_text (btn (fire (RestoreText o) (click_end o f pg1)))
  = reflect_text (btn pg).
Proof.
  intros H. pose proof (restore_gives_back pg pg1 o f H) as Hr.
  apply click_start_some in H as (_ & _ & _ & Ht & _ & _ & _ & _ & Htm).
  destruct (click_end_button o f pg1) as (He & Hin & Hall).
  split; [|split; [exact Hin | split; [|exact Hr]]].
  - intros Ho. rewrite He, Ht, Ho. reflexivity.
  - intros d c Hd. rewrite <- Htm. now apply Hall.
Qed.

Lemma label_is_restored_witness :
  match click_start fresh_button with
  | Some (o, pg1) =>
      reflect_text (btn (click_end o Rejected pg1)) = Some (js "Reflecting...") /\
      reflect_text (btn (fire (RestoreText o) (click_end o Rejected pg1)))
      = Some (js "Reflect")
  | None => False
  end.
Proof.
  destruct (click_start fresh_button) as [[o pg1]|] eqn:E;
    [|vm_compute in E; discriminate].
  destruct (label_is_restored fresh_button pg1 o Rejected E)
    as (H1 & _ & _ & H4).
  split; [|exact H4]. apply H1.
  vm_compute in E. injection E as <- _. reflexivity.
Defined.

(** A second click, made after the handler has ended and before the
    restore timeout of the first has run, captures 'Reflecting...' as the
    label, and every timeout it schedules restores that. *)
Theorem second_click_captures_placeholder (pg pg1 pg2 : page)
  (o o2 : option jsstring) (f : fetched) :
  click_start pg = Some (o, pg1) ->
  has_text o = true ->
  click_start (click_end o f pg1) = Some (o2, pg2) ->
  o2 = Some (js "Reflecting...") /\
  forall f2,
    reflect_text (btn (fire (RestoreText o2) (click_end o2 f2 pg2)))
    = Some (js "Reflecting...").
Proof.
  intros H Ho H2.
  assert (Ht : reflect_text (btn (click_end o f pg1)) = Some (js "Reflecting...")).
  { apply click_start_some in H as (_ & _ & _ & Ht & _).
    destruct (click_end_button o f pg1) as (He & _).
    rewrite He, Ht, Ho. reflexivity. }
  split.
  - apply click_start_some in H2 as (_ & -> & _). exact Ht.
  - intros f2. rewrite (restore_gives_back _ _ _ f2 H2). exact Ht.
Qed.

Lemma second_click_captures_placeholder_witness :
  match click_start fresh_button with
  | Some (o, pg1) =>
      match click_start (click_end o Rejected pg1) with
      | Some (o2, pg2) => o2 = Some (js "Reflecting...")
      | None => False
      end
  | None => False
  end.
Proof.
  destruct (click_start fresh_button) as [[o pg1]|] eqn:E;
    [|vm_compute in E; discriminate].
  destruct (click_start (click_end o Rejected pg1)) as [[o2 pg2]|] eqn:E2.
  - apply (second_click_captures_placeholder fresh_button pg1 pg2 o o2
             Rejected E); [|exact E2].
    vm_compute in E. injection E as <- _. reflexivity.
  - vm_compute in E. injection E as <- <-. vm_compute in E2. discriminate.
Defined.

(* ================================================================= *)
(** ** The forwarded header as voter *)

Lemma forwarded_identity (req : request) (h : jsstring) :
  x_forwarded_for req = Some h ->
  nth 0 (split comma h) [] <> [] ->
  getClientIp req = nth 0 (split comma h) [].
Proof.
  intros Hh Hne. unfold getClientIp. rewrite forwarded_first_eq, Hh. simpl.
  destruct (nth 0 (split comma h) []); [congruence | reflexivity].
Qed.

(** An identity taken from the forwarded header is the header up to its
    first comma, as it stands: it contains no comma, nothing of it is
    trimmed, and the rest of the header and [req.ip] play no part. *)
Theorem forwarded_identity_is_first_element (req : request) (h : jsstring) :
  x_forwarded_for req = Some h ->
  nth 0 (split comma h) [] <> [] ->
  ~ In comma (getClientIp req) /\
  (h = getClientIp req \/ exists t, h = getClientIp req ++ comma :: t) /\
  (forall req' h',
     x_forwarded_for req' = Some h' ->
     nth 0 (split comma h') [] = nth 0 (split comma h) [] ->
     getClientIp req' = getClientIp req).
Proof.
  intros Hh Hne. rewrite (forwarded_identity req h Hh Hne).
  destruct (split_first comma h) as (e & ws & Hs & Hn & Hr).
  rewrite Hs in *. simpl in *. split; [exact Hn|]. split.
  - destruct Hr as [[-> _] | (t & -> & _)]; [now left | right; now exists t].
  - intros req' h' Hh' He. rewrite <- He.
    apply forwarded_identity; [exact Hh'|]. rewrite He. exact Hne.
Qed.

Lemma forwarded_identity_is_first_element_witness :
  ~ In comma (getClientIp forwarded_a) /\
  (js "198.51.100.1, 10.0.0.1" = getClientIp forwarded_a \/
   exists t, js "198.51.100.1, 10.0.0.1" = getClientIp forwarded_a ++ comma :: t).
Proof.
  destruct (forwarded_identity_is_first_element forwarded_a
              (js "198.51.100.1, 10.0.0.1")) as (H1 & H2 & _).
  - reflexivity.
  - discriminate.
  - split; assumption.
Defined.

Lemma str_eqb_neq (a b : jsstring) : a <> b -> str_eqb a b = false.
Proof.
  intros H. destruct (str_eqb a b) eqn:E; [|reflexivity].
  apply str_eqb_eq in E. contradiction.
Qed.

(** A requester who changes the first element of the forwarded header is
    another voter: two requests for one message whose identities differ
    (and fit the column), neither registered yet, both register when the
    engine fails nothing, and the counter goes up by two. *)
Theorem changed_header_registers_again (M : Z) (req1 req2 : request)
  (p : pool) (row : message_row) :
  quiescent p -> failures p = [] ->
  find (has_id M) (messages (store p)) = Some row ->
  getClientIp req1 <> getClientIp req2 ->
  (List.length (getClientIp req1) <= 45)%nat ->
  (List.length (getClientIp req2) <= 45)%nat ->
  existsb (matches M (getClientIp req1)) (reflections (store p)) = false ->
  existsb (matches M (getClientIp req2)) (reflections (store p)) = false ->
  let first := run (post_reflect M req1) p in
  let second := run (post_reflect M req2) (snd (fst first)) in
  fst (fst first) = Returned (reflected (reflection_count row + 1)) /\
  fst (fst second) = Returned (reflected (reflection_count row + 2)) /\
  count_of (store (snd (fst second))) M = Some (reflection_count row + 2).
Proof.
  intros Hq Hf Hfind Hne Hl1 Hl2 Hn1 Hn2 first second.
  unfold post_reflect in *.
  destruct (reflect_fresh M _ p row Hq Hf Hfind Hl1 Hn1)
    as (p1 & tr1 & E1 & Hq1 & Hf1 & Hs1).
  assert (Hfirst : first = (Returned (reflected (reflection_count row + 1)), p1, tr1))
    by exact E1.
  assert (Hfind1 : find (has_id M) (messages (store p1)) = Some (increment M row)).
  { rewrite Hs1. cbn [messages]. now rewrite find_increment, Hfind. }
  assert (Hn2' : existsb (matches M (getClientIp req2)) (reflections (store p1))
                 = false).
  { rewrite Hs1. cbn [reflections]. rewrite existsb_app, Hn2. simpl.
    unfold matches. cbn [message_id user_ip].
    rewrite (str_eqb_neq _ _ Hne). now rewrite andb_false_r. }
  destruct (reflect_fresh M _ p1 _ Hq1 Hf1 Hfind1 Hl2 Hn2')
    as (p2 & tr2 & E2 & Hq2 & Hf2 & Hs2).
  assert (Hc : reflection_count (increment M row) = reflection_count row + 1).
  { unfold increment. apply find_some in Hfind as [_ ->]. reflexivity. }
  rewrite Hc in E2.
  replace (reflection_count row + 1 + 1) with (reflection_count row + 2) in E2
    by lia.
  assert (Hsecond : second = (Returned (reflected (reflection_count row + 2)), p2, tr2)).
  { unfold second. rewrite Hfirst. exact E2. }
  rewrite Hfirst, Hsecond. cbn [fst snd]. repeat split.
  rewrite Hs2. destruct (store p1) as [M1 R1] eqn:E.
  cbn [messages reflections] in *.
  destruct (count_of_increment M1 R1
              (R1 ++ [{| r_id := reflections_id_seq p1; message_id := M;
                         user_ip := getClientIp req2 |}]) M _ Hfind1) as [H _].
  rewrite H, Hc. f_equal. lia.
Qed.

Lemma changed_header_registers_again_witness :
  fst (fst (run (post_reflect 1 forwarded_b)
              (snd (fst (run (post_reflect 1 forwarded_a) seeded_pool)))))
  = Returned (reflected 9).
Proof.
  assert (Hfind : find (has_id 1) (messages (store seeded_pool))
                  = Some {| id := 1;
                            text := seed_text (nth 0 initialMessages
                                       {| seed_text := []; seed_category := [];
                                          seed_author := [];
                                          seed_reflection_count := 0 |});
                            category := Some (js "Vulnerability");
                            author := js "Anonymous";
                            reflection_count := 7 |}) by reflexivity.
  destruct (changed_header_registers_again 1 forwarded_a forwarded_b
              seeded_pool _ eq_refl eq_refl Hfind) as (_ & H & _).
  - vm_compute. discriminate.
  - vm_compute. lia.
  - vm_compute. lia.
  - reflexivity.
  - reflexivity.
  - exact H.
Defined.
